(** * Ephemeral hidden service: key encoding and control session

    A shallow embedding of [src/ephemeral_hidden_service/cli.py]:
    the key provisioner ([generate_x25519_key_pair], [encode_keys]) and the
    control session ([start_ephemeral_service]), together with the parts of
    the Python standard library the source calls ([base64.b32encode],
    [bytes.decode], [str.rstrip]) and the inverse [base64.b32decode] used to
    state the round trip.

    The session is a sequential program with exceptions. It is written in a
    small monad that records the events visible from outside (connection
    opened and closed, commands sent, lines printed, sleeps) and ends
    normally, with a Python exception, or never. The daemon, the key
    generator and the operator are the environment: a record that gives the
    outcome of every call the source makes. An interruption signal shows as
    [KeyboardInterrupt] raised by the call during which it arrives (a
    controller method, key generation or [sleep]); printing is not
    interrupted. *)

From Stdlib Require Import ZArith Lia.
From Stdlib Require Import Strings.Byte Strings.Ascii.
From stdpp Require Import gmap strings list fin_maps pretty.

Local Open Scope Z_scope.

(** ** Python [bytes] and [int] conversions *)

Module PyBytes.

#[global] Instance byte_eq_dec : EqDecision byte := Byte.byte_eq_dec.

(** A [bytes] object is a list of bytes; [to_int b] is the integer
    [b] stands for, between 0 and 255. *)
Definition to_int (b : byte) : Z := Z.of_N (Byte.to_N b).

(** The byte that stands for [z mod 256]. *)
Definition of_int (z : Z) : byte :=
  match Byte.of_N (Z.to_N (z mod 256)) with
  | Some b => b
  | None => "000"%byte
  end.

(** [int.from_bytes(s, 'big')]. *)
Definition from_bytes (s : list byte) : Z :=
  fold_left (fun acc b => acc * 256 + to_int b) s 0.

(** [z.to_bytes(n, 'big')] for [0 <= z < 256 ^ n]. *)
Fixpoint to_bytes (n : nat) (z : Z) : list byte :=
  match n with
  | O => []
  | S k => of_int (Z.shiftr z (8 * Z.of_nat k)) :: to_bytes k z
  end.

(** [s.decode()] on ASCII data: every byte becomes the character with the
    same code. *)
Definition decode (s : list byte) : string := String.string_of_list_byte s.

(** [s.encode('ascii')]. *)
Definition encode (s : string) : list byte := String.list_byte_of_string s.

(** [s.rstrip(chars)]: drop the longest suffix of [s] made only of
    members of [chars]. *)
Fixpoint rstrip (chars : list byte) (s : list byte) : list byte :=
  match s with
  | [] => []
  | b :: s' =>
      match rstrip chars s' with
      | [] => if bool_decide (b ∈ chars) then [] else [b]
      | t => b :: t
      end
  end.

(** [encoded[-k:] = tail]: slice assignment over the last [k] items. *)
Definition set_tail (k : nat) (tail : list byte) (encoded : list byte) : list byte :=
  take (length encoded - k) encoded ++ tail.

End PyBytes.

(** ** Python [str] *)

Module PyStr.

(** [s.rstrip(chars)] on text. *)
Fixpoint rstrip (chars : string) (s : string) : string :=
  match s with
  | EmptyString => EmptyString
  | String a s' =>
      match rstrip chars s' with
      | EmptyString =>
          if bool_decide (a ∈ String.list_ascii_of_string chars) then EmptyString
          else String a EmptyString
      | t => String a t
      end
  end.

(** [c in s] for a one-character [c]. *)
Definition contains (c : ascii) (s : string) : Prop :=
  c ∈ String.list_ascii_of_string s.

End PyStr.

(** ** [base64.b32encode] and [base64.b32decode] (RFC 4648)

    After [_b32encode] and [_b32decode] of CPython's [Lib/base64.py], with
    the standard alphabet and the default arguments. *)

Module Base32.
Import PyBytes.

Definition b32alphabet : list byte :=
  String.list_byte_of_string "ABCDEFGHIJKLMNOPQRSTUVWXYZ234567".

(** [_b32alphabet[d]] *)
Definition b32tab (d : Z) : byte :=
  nth (Z.to_nat d) b32alphabet "000"%byte.

(** [b32tab2 = [a + b for a in b32tab for b in b32tab]], indexed by a
    10-bit number. *)
Definition b32tab2 (i : Z) : list byte :=
  [b32tab (Z.shiftr i 5); b32tab (Z.land i 31)].

(** The eight characters standing for one 40-bit group [c]. *)
Definition quantum (c : Z) : list byte :=
  b32tab2 (Z.shiftr c 30)
  ++ b32tab2 (Z.land (Z.shiftr c 20) 1023)
  ++ b32tab2 (Z.land (Z.shiftr c 10) 1023)
  ++ b32tab2 (Z.land c 1023).

(** The loop [for i in range(0, len(s), 5)] over five-byte groups. *)
Fixpoint quanta (s : list byte) : list byte :=
  match s with
  | [] => []
  | b0 :: b1 :: b2 :: b3 :: b4 :: rest =>
      quantum (from_bytes [b0; b1; b2; b3; b4]) ++ quanta rest
  | short => quantum (from_bytes short)
  end.

Definition pad : byte := "="%byte.

Definition b32encode (s : list byte) : list byte :=
  let leftover := (length s mod 5)%nat in
  let s :=
    if bool_decide (leftover = 0%nat) then s
    else s ++ replicate (5 - leftover) "000"%byte in
  let encoded := quanta s in
  match leftover with
  | 1%nat => set_tail 6 (replicate 6 pad) encoded
  | 2%nat => set_tail 4 (replicate 4 pad) encoded
  | 3%nat => set_tail 3 (replicate 3 pad) encoded
  | 4%nat => set_tail 1 (replicate 1 pad) encoded
  | _ => encoded
  end.

(** [_b32rev[c]]: position of [c] in the alphabet. *)
Fixpoint index_of (c : byte) (tab : list byte) (i : Z) : option Z :=
  match tab with
  | [] => None
  | x :: tab' => if bool_decide (x = c) then Some i else index_of c tab' (i + 1)
  end.

Definition b32rev (c : byte) : option Z := index_of c b32alphabet 0.

(** [for c in quanta: acc = (acc << 5) + b32rev[c]] *)
Fixpoint accumulate (acc : Z) (q : list byte) : option Z :=
  match q with
  | [] => Some acc
  | c :: q' =>
      match b32rev c with
      | Some d => accumulate (Z.shiftl acc 5 + d) q'
      | None => None
      end
  end.

(** The decoding loop over eight-character groups; returns the decoded
    bytes and the accumulator of the last group. *)
Fixpoint decode_quanta (s : list byte) : option (list byte * Z) :=
  match s with
  | [] => Some ([], 0)
  | c0 :: c1 :: c2 :: c3 :: c4 :: c5 :: c6 :: c7 :: rest =>
      match accumulate 0 [c0; c1; c2; c3; c4; c5; c6; c7] with
      | None => None
      | Some acc =>
          match rest with
          | [] => Some (to_bytes 5 acc, acc)
          | _ =>
              match decode_quanta rest with
              | None => None
              | Some (d, last) => Some (to_bytes 5 acc ++ d, last)
              end
          end
      end
  | short =>
      match accumulate 0 short with
      | None => None
      | Some acc => Some (to_bytes 5 acc, acc)
      end
  end.

(** The end of [b32decode]: when padding was stripped, the bytes of the
    last group are recomputed from its accumulator and cut to the
    [leftover] bytes that carry data. *)
Definition unpad (padchars : nat) (decoded : list byte) (acc : Z) : list byte :=
  if negb (bool_decide (padchars = 0%nat)) && negb (bool_decide (decoded = []))
  then
    let acc := Z.shiftl acc (5 * Z.of_nat padchars) in
    let last := to_bytes 5 acc in
    let leftover := ((43 - 5 * padchars) / 8)%nat in
    set_tail 5 (take leftover last) decoded
  else decoded.

(** [base64.b32decode(s)]; [None] stands for [binascii.Error]. *)
Definition b32decode (s : string) : option (list byte) :=
  let s := encode s in
  if negb (bool_decide (length s mod 8 = 0)%nat) then None else
  let l := length s in
  let s := rstrip [pad] s in
  let padchars := (l - length s)%nat in
  match decode_quanta s with
  | None => None
  | Some (decoded, acc) =>
      if negb (bool_decide (padchars ∈ [0; 1; 3; 4; 6]%nat)) then None
      else Some (unpad padchars decoded acc)
  end.

End Base32.

(** ** The shape of an encoding *)

Module Base32Shape.
Import PyBytes Base32.

(** Number of [=] characters after a last group of [leftover] bytes. *)
Definition npad (leftover : nat) : nat :=
  match leftover with
  | 1 => 6
  | 2 => 4
  | 3 => 3
  | 4 => 1
  | _ => 0
  end%nat.

(** The characters of [b32encode s] that carry data: whole groups, then
    the leading characters of the last, zero-filled group. *)
Fixpoint data (s : list byte) : list byte :=
  match s with
  | [] => []
  | b0 :: b1 :: b2 :: b3 :: b4 :: rest =>
      quantum (from_bytes [b0; b1; b2; b3; b4]) ++ data rest
  | short =>
      take (8 - npad (length short))
        (quantum (from_bytes (short ++ replicate (5 - length short) "000"%byte)))
  end.

End Base32Shape.

(** ** Key provisioner *)

Module Keys.
Import PyBytes Base32.

(** A key object of the [cryptography] package, seen through the two
    methods the source calls: its raw serialisation and, for a private
    key, [public_key()]. *)
Record X25519PublicKey := { public_bytes : list byte }.
Record X25519PrivateKey := {
  private_bytes : list byte;
  public_key : X25519PublicKey
}.

(** [generate_x25519_key_pair()]; [fresh] is the key drawn by
    [X25519PrivateKey.generate()]. *)
Definition generate_x25519_key_pair (fresh : X25519PrivateKey)
  : X25519PrivateKey * X25519PublicKey :=
  let private_key := fresh in
  let public_key := public_key private_key in
  (private_key, public_key).

(** [b32encode(keybytes).decode().rstrip("=")] *)
Definition b32text (keybytes : list byte) : string :=
  PyStr.rstrip "=" (decode (b32encode keybytes)).

Definition encode_keys (private_key : X25519PrivateKey)
    (public_key : X25519PublicKey) : string * string :=
  (b32text (private_bytes private_key), b32text (public_bytes public_key)).

(** Modelled from the spec: the padding "restored deterministically from
    its length", which the source does not contain. Base-32 text is a
    whole number of eight-character groups, so the text is filled up with
    [=] to the next multiple of eight. *)
Definition restore_padding (text : string) : string :=
  text +:+ decode (replicate ((8 - String.length text mod 8) mod 8) pad).

End Keys.

(** ** Control session *)

Module Session.
Import Keys.

Inductive exn :=
| KeyboardInterrupt
| AssertionError
| SocketError             (* stem.SocketError *)
| AuthenticationFailure   (* stem.connection.AuthenticationFailure *)
| ProtocolError           (* stem.ProtocolError *)
| OperationFailed         (* stem.OperationFailed *)
| UnsupportedAlgorithm.   (* cryptography.exceptions.UnsupportedAlgorithm *)

(** What a call into a library does: it returns, or it raises. An
    interruption signal that arrives while the process is inside the call
    shows as [Raises KeyboardInterrupt]. *)
Inductive outcome (A : Type) :=
| Returns (a : A)
| Raises (e : exn).
Arguments Returns {A} a.
Arguments Raises {A} e.

(** Values of the keyword dictionary: [str | bool | dict[int, int]]. *)
Inductive value :=
| VStr (s : string)
| VBool (b : bool)
| VPorts (ports : gmap Z Z).

(** [stem.response.add_onion.AddOnionResponse], of which the source reads
    [service_id] only; [None] when the reply carries no identifier. *)
Record AddOnionResponse := { service_id : option string }.

(** Commands issued through the controller. *)
Inductive command :=
| AUTHENTICATE (password : option string)
| ADD_ONION (kwargs : gmap string value)
| GETINFO_onions
| DEL_ONION (service_id : string).

(** What the process does that is visible from outside, in order. *)
Inductive event :=
| Opened                  (* Controller.from_port() returned a connection *)
| Sent (c : command)      (* a controller method was called *)
| Printed (line : string)   (* a line on standard output *)
| Slept (seconds : Z)     (* time.sleep was called *)
| Closed.                 (* the connection was closed *)

(** The world the process runs in: the outcome of every call the source
    makes, in program order. Each call site but [sleep] is reached at most
    once in a run. [env_sleeps] is the number of [sleep(1000)] calls that
    return before the interruption signal arrives during the wait; [None]
    when no signal ever arrives. *)
Record environment := {
  env_from_port : outcome unit;
  env_authenticate : outcome unit;
  env_generate : outcome X25519PrivateKey;
  env_create : outcome AddOnionResponse;
  env_list_after_create : outcome (list string);
  env_sleeps : option nat;
  env_remove : outcome bool;
  env_list_after_remove : outcome (list string)
}.

(** How a piece of the program ends. [Blocked]: it never ends (the wait
    goes on for ever). *)
Inductive completion (A : Type) :=
| Normal (a : A)
| Raised (e : exn)
| Blocked.
Arguments Normal {A} a.
Arguments Raised {A} e.
Arguments Blocked {A}.

(** A piece of the program: the events it emits and how it ends. *)
Definition prog (A : Type) : Type := (list event * completion A)%type.

Definition ret {A} (a : A) : prog A := ([], Normal a).

Definition bind {A B} (m : prog A) (f : A → prog B) : prog B :=
  match m with
  | (t, Normal a) => let '(t', c) := f a in (t ++ t', c)
  | (t, Raised e) => (t, Raised e)
  | (t, Blocked) => (t, Blocked)
  end.

#[global] Instance prog_ret : MRet prog := @ret.
#[global] Instance prog_bind : MBind prog := λ A B f m, bind m f.

Definition raise {A} (e : exn) : prog A := ([], Raised e).

Definition emit (ev : event) : prog unit := ([ev], Normal tt).

(** A call into a library: the event, then the outcome the world gives. *)
Definition call {A} (ev : event) (o : outcome A) : prog A :=
  ([ev], match o with Returns a => Normal a | Raises e => Raised e end).

Definition print (line : string) : prog unit := emit (Printed line).

(** [try: body except KeyboardInterrupt: handler] *)
Definition try_except_KeyboardInterrupt (body handler : prog unit) : prog unit :=
  match body with
  | (t, Raised KeyboardInterrupt) => let '(t', c) := handler in (t ++ t', c)
  | other => other
  end.

(** [with Controller.from_port() as controller: body]. When [from_port]
    raises, the block is not entered and there is nothing to close;
    otherwise [__exit__] closes the connection however [body] ends. *)
Definition with_controller {A} (from_port : outcome unit) (body : prog A) : prog A :=
  match from_port with
  | Raises e => raise e
  | Returns _ =>
      match body with
      | (t, Blocked) => (Opened :: t, Blocked)
      | (t, c) => (Opened :: t ++ [Closed], c)
      end
  end.

(** [while True: sleep(1000)], where the first [sleeps] calls return and
    the next one is interrupted. *)
Fixpoint while_true_sleep (sleeps : nat) : prog unit :=
  match sleeps with
  | O => call (Slept 1000) (Raises KeyboardInterrupt)
  | S k => call (Slept 1000) (Returns tt) ;; while_true_sleep k
  end.

Definition wait (sleeps : option nat) : prog unit :=
  match sleeps with
  | Some n => while_true_sleep n
  | None => ([], Blocked)
  end.

(** [assert cond] *)
Definition py_assert (cond : bool) : prog unit :=
  if cond then ret tt else raise AssertionError.

(** [assert response.service_id]: the identifier must be there and not
    empty; it is handed on as [response.service_id]. *)
Definition assert_service_id (response : AddOnionResponse) : prog string :=
  match service_id response with
  | Some sid => if bool_decide (sid = "") then raise AssertionError else ret sid
  | None => raise AssertionError
  end.

(** [f"localhost:{local_port} is exposed at "
     f"{response.service_id}.onion:{hidden_service_port}"] *)
Definition address_line (local_port : Z) (sid : string) (hidden_service_port : Z)
  : string :=
  "localhost:" +:+ pretty local_port +:+ " is exposed at "
  +:+ sid +:+ ".onion:" +:+ pretty hidden_service_port.

(** [f"Client authentication key: {encoded_private_key}"] *)
Definition credential_line (encoded_private_key : string) : string :=
  "Client authentication key: " +:+ encoded_private_key.

(** [a | b] on dictionaries: the entries of [b] win. *)
Definition dict_or (a b : gmap string value) : gmap string value := b ∪ a.

(** The keyword dictionary of lines 97 to 100. *)
Definition hidden_service_configuration (hidden_service_port local_port : Z)
    (auth_config : gmap string value) : gmap string value :=
  dict_or
    (<["ports" := VPorts {[hidden_service_port := local_port]}]>
       {["await_publication" := VBool true]})
    auth_config.

Section Run.
Variable env : environment.

(** The methods of [stem.control.Controller] the source calls. *)
Definition authenticate (password : option string) : prog unit :=
  call (Sent (AUTHENTICATE password)) (env_authenticate env).

(** The call [generate_x25519_key_pair()] of line 91. *)
Definition generate_key_pair : prog (X25519PrivateKey * X25519PublicKey) :=
  match env_generate env with
  | Returns fresh => ret (generate_x25519_key_pair fresh)
  | Raises e => raise e
  end.

Definition create_ephemeral_hidden_service (kwargs : gmap string value)
  : prog AddOnionResponse :=
  call (Sent (ADD_ONION kwargs)) (env_create env).

Definition list_ephemeral_hidden_services (reply : outcome (list string))
  : prog (list string) :=
  call (Sent GETINFO_onions) reply.

Definition remove_ephemeral_hidden_service (sid : string) : prog bool :=
  call (Sent (DEL_ONION sid)) (env_remove env).

(** The body of the [with] block, lines 84 to 128. *)
Definition session (local_port hidden_service_port : Z) (public : bool)
    (controller_password : option string) : prog unit :=
  authenticate controller_password ;;
  '(auth_config, encoded_private_key) ←
    (if public then ret (∅, "")
     else
       '(private_key, public_key) ← generate_key_pair;
       let '(encoded_private_key, encoded_public_key) :=
         encode_keys private_key public_key in
       ret ({["client_auth_v3" := VStr encoded_public_key]}, encoded_private_key));
  let hidden_service_configuration :=
    hidden_service_configuration hidden_service_port local_port auth_config in
  response ← create_ephemeral_hidden_service hidden_service_configuration;
  sid ← assert_service_id response;
  print "Ephemeral hidden service created" ;;
  print (address_line local_port sid hidden_service_port) ;;
  (if negb public then print (credential_line encoded_private_key)
   else ret tt) ;;
  services ← list_ephemeral_hidden_services (env_list_after_create env);
  py_assert (bool_decide (sid ∈ services)) ;;
  try_except_KeyboardInterrupt
    (print "Press Ctrl+C to interrupt..." ;; wait (env_sleeps env))
    (print "Ctrl+C pressed. Exiting...") ;;
  remove_ephemeral_hidden_service sid ;;
  services ← list_ephemeral_hidden_services (env_list_after_remove env);
  py_assert (negb (bool_decide (sid ∈ services))).

Definition start_ephemeral_service (local_port hidden_service_port : Z)
    (public : bool) (controller_password : option string) : prog unit :=
  with_controller (env_from_port env)
    (session local_port hidden_service_port public controller_password) ;;
  print "Service terminated".

End Run.

Definition trace {A} (p : prog A) : list event := fst p.
Definition completed {A} (p : prog A) : completion A := snd p.

(** The status the process exits with: 0 when the command returns, 1 when
    an exception leaves it (an [AssertionError] or a library error through
    the interpreter, a [KeyboardInterrupt] through [click]'s abort);
    [None] while the process has not exited. *)
Definition exit_status {A} (p : prog A) : option Z :=
  match completed p with
  | Normal _ => Some 0
  | Raised _ => Some 1
  | Blocked => None
  end.

End Session.

(** ** How far a run gets, read off the environment *)

Module Paths.
Import Keys Session.

(** The connection is open and the daemon accepted the credential. *)
Definition authenticated (env : environment) : Prop :=
  env_from_port env = Returns tt ∧ env_authenticate env = Returns tt.

(** Lines 86 to 95 went through: nothing to generate in public mode,
    otherwise the key was drawn. *)
Definition keys_ready (env : environment) (public : bool) : Prop :=
  public = true ∨ ∃ fresh, env_generate env = Returns fresh.

(** The create reply carries the identifier [sid] (line 106 passes). *)
Definition created (env : environment) (public : bool) (sid : string) : Prop :=
  authenticated env ∧ keys_ready env public
  ∧ env_create env = Returns {| service_id := Some sid |} ∧ sid ≠ "".

(** The list queried after the create reply has [sid] (line 117 passes). *)
Definition confirmed (env : environment) (public : bool) (sid : string) : Prop :=
  created env public sid
  ∧ ∃ services, env_list_after_create env = Returns services ∧ sid ∈ services.

(** The first interruption arrives inside a call made before the wait. *)
Definition interrupted_before_wait (env : environment) (public : bool) : Prop :=
  env_from_port env = Returns tt
  ∧ (env_authenticate env = Raises KeyboardInterrupt
     ∨ (env_authenticate env = Returns tt ∧ public = false
        ∧ env_generate env = Raises KeyboardInterrupt)
     ∨ (env_authenticate env = Returns tt ∧ keys_ready env public
        ∧ env_create env = Raises KeyboardInterrupt)
     ∨ (∃ sid, created env public sid
        ∧ env_list_after_create env = Raises KeyboardInterrupt)).

Definition is_remove (ev : event) : bool :=
  match ev with Sent (DEL_ONION _) => true | _ => false end.
Definition is_create (ev : event) : bool :=
  match ev with Sent (ADD_ONION _) => true | _ => false end.
Definition is_authenticate (ev : event) : bool :=
  match ev with Sent (AUTHENTICATE _) => true | _ => false end.
Definition is_list (ev : event) : bool :=
  match ev with Sent GETINFO_onions => true | _ => false end.
Definition is_sent (ev : event) : bool :=
  match ev with Sent _ => true | _ => false end.
Definition is_opened (ev : event) : bool :=
  match ev with Opened => true | _ => false end.
Definition is_closed (ev : event) : bool :=
  match ev with Closed => true | _ => false end.
(** The line the [except KeyboardInterrupt] handler prints. *)
Definition is_caught (ev : event) : bool :=
  match ev with
  | Printed line => bool_decide (line = "Ctrl+C pressed. Exiting...")
  | _ => false
  end.
(** The line printed on entering the wait. *)
Definition is_waiting (ev : event) : bool :=
  match ev with
  | Printed line => bool_decide (line = "Press Ctrl+C to interrupt...")
  | _ => false
  end.
(** [s.startswith(p)] *)
Fixpoint starts_with (p s : string) : bool :=
  match p, s with
  | EmptyString, _ => true
  | String a p', String b s' => Ascii.eqb a b && starts_with p' s'
  | String _ _, EmptyString => false
  end.

(** An address line or a credential line. *)
Definition is_exposure (ev : event) : bool :=
  match ev with
  | Printed line =>
      starts_with "localhost:" line || starts_with "Client authentication key: " line
  | _ => false
  end.

(** How many events of a trace satisfy [p]. *)
Definition count (p : event → bool) (t : list event) : nat :=
  length (filter (λ ev, p ev = true) t).

(** *** The ways a run can go

    One constructor for each way through [start_ephemeral_service], with
    the trace and the completion of that way. *)
Section Shapes.
Variable env : environment.
Variables local_port hidden_service_port : Z.
Variable public : bool.
Variable controller_password : option string.

(** [auth_config] and [encoded_private_key] after lines 86 to 95. *)
Definition keys_are (auth_config : gmap string value)
    (encoded_private_key : string) : Prop :=
  (public = true ∧ auth_config = ∅ ∧ encoded_private_key = "")
  ∨ (public = false
     ∧ ∃ fresh, env_generate env = Returns fresh
       ∧ auth_config =
           {["client_auth_v3" :=
               VStr (snd (encode_keys fresh (public_key fresh)))]}
       ∧ encoded_private_key = fst (encode_keys fresh (public_key fresh))).

Definition opening : list event :=
  [Opened; Sent (AUTHENTICATE controller_password)].

Definition requested (auth_config : gmap string value) : list event :=
  opening
  ++ [Sent (ADD_ONION
              (hidden_service_configuration hidden_service_port local_port
                 auth_config))].

Definition exposed (auth_config : gmap string value)
    (encoded_private_key sid : string) : list event :=
  requested auth_config
  ++ [Printed "Ephemeral hidden service created";
      Printed (address_line local_port sid hidden_service_port)]
  ++ (if public then [] else [Printed (credential_line encoded_private_key)])
  ++ [Sent GETINFO_onions].

Definition interrupted (auth_config : gmap string value)
    (encoded_private_key sid : string) (sleeps : nat) : list event :=
  exposed auth_config encoded_private_key sid
  ++ Printed "Press Ctrl+C to interrupt..." :: replicate (S sleeps) (Slept 1000)
  ++ [Printed "Ctrl+C pressed. Exiting..."; Sent (DEL_ONION sid)].

Inductive run_shape : prog unit → Prop :=
| connect_failed e :
    env_from_port env = Raises e →
    run_shape ([], Raised e)
| authenticate_failed e :
    env_from_port env = Returns tt →
    env_authenticate env = Raises e →
    run_shape (opening ++ [Closed], Raised e)
| generate_failed e :
    authenticated env → public = false →
    env_generate env = Raises e →
    run_shape (opening ++ [Closed], Raised e)
| create_failed e ac key :
    authenticated env → keys_are ac key →
    env_create env = Raises e →
    run_shape (requested ac ++ [Closed], Raised e)
| no_identifier response ac key :
    authenticated env → keys_are ac key →
    env_create env = Returns response →
    service_id response = None ∨ service_id response = Some "" →
    run_shape (requested ac ++ [Closed], Raised AssertionError)
| list_failed e ac key sid :
    created env public sid → keys_are ac key →
    env_list_after_create env = Raises e →
    run_shape (exposed ac key sid ++ [Closed], Raised e)
| not_listed services ac key sid :
    created env public sid → keys_are ac key →
    env_list_after_create env = Returns services → sid ∉ services →
    run_shape (exposed ac key sid ++ [Closed], Raised AssertionError)
| waiting ac key sid :
    confirmed env public sid → keys_are ac key →
    env_sleeps env = None →
    run_shape
      (exposed ac key sid ++ [Printed "Press Ctrl+C to interrupt..."], Blocked)
| remove_failed e ac key sid n :
    confirmed env public sid → keys_are ac key →
    env_sleeps env = Some n →
    env_remove env = Raises e →
    run_shape (interrupted ac key sid n ++ [Closed], Raised e)
| second_list_failed e ac key sid n removed :
    confirmed env public sid → keys_are ac key →
    env_sleeps env = Some n →
    env_remove env = Returns removed →
    env_list_after_remove env = Raises e →
    run_shape
      (interrupted ac key sid n ++ [Sent GETINFO_onions; Closed], Raised e)
| still_listed services ac key sid n removed :
    confirmed env public sid → keys_are ac key →
    env_sleeps env = Some n →
    env_remove env = Returns removed →
    env_list_after_remove env = Returns services → sid ∈ services →
    run_shape
      (interrupted ac key sid n ++ [Sent GETINFO_onions; Closed],
       Raised AssertionError)
| clean services ac key sid n removed :
    confirmed env public sid → keys_are ac key →
    env_sleeps env = Some n →
    env_remove env = Returns removed →
    env_list_after_remove env = Returns services → sid ∉ services →
    run_shape
      (interrupted ac key sid n
       ++ [Sent GETINFO_onions; Closed; Printed "Service terminated"],
       Normal tt).

End Shapes.

(** The claim that the address is shown only once the service is
    confirmed, as the specification words it: an address line in the
    trace implies that the list queried after the create reply had the
    identifier. *)
Definition address_only_after_confirmation : Prop :=
  ∀ env local_port hidden_service_port public controller_password sid,
    In (Printed (address_line local_port sid hidden_service_port))
       (trace (start_ephemeral_service env local_port hidden_service_port
                 public controller_password)) →
    ∃ services, env_list_after_create env = Returns services ∧ sid ∈ services.

End Paths.

(** ** Sample runs *)

Module Samples.
Import Keys Session.

Definition sample_key : X25519PrivateKey :=
{| private_bytes := replicate 32 "001"%byte;
   public_key := {| public_bytes := replicate 32 "002"%byte |} |}.

(** The same private bytes in another key object. *)
Definition sample_key_again : X25519PrivateKey :=
{| private_bytes := replicate 32 "001"%byte;
   public_key := {| public_bytes := replicate 32 "003"%byte |} |}.

(** A daemon that does what is asked; the interruption arrives during the
  third [sleep]. *)
Definition daemon : environment :=
{| env_from_port := Returns tt;
   env_authenticate := Returns tt;
   env_generate := Returns sample_key;
   env_create := Returns {| service_id := Some "abc123" |};
   env_list_after_create := Returns ["abc123"];
   env_sleeps := Some 2%nat;
   env_remove := Returns true;
   env_list_after_remove := Returns [] |}.

(** The daemon rejects the credential. *)
Definition rejecting : environment :=
{| env_from_port := Returns tt;
   env_authenticate := Raises AuthenticationFailure;
   env_generate := Returns sample_key;
   env_create := Returns {| service_id := Some "abc123" |};
   env_list_after_create := Returns ["abc123"];
   env_sleeps := Some 2%nat;
   env_remove := Returns true;
   env_list_after_remove := Returns [] |}.

(** The create reply has no identifier. *)
Definition anonymous : environment :=
{| env_from_port := Returns tt;
   env_authenticate := Returns tt;
   env_generate := Returns sample_key;
   env_create := Returns {| service_id := None |};
   env_list_after_create := Returns ["abc123"];
   env_sleeps := Some 2%nat;
   env_remove := Returns true;
   env_list_after_remove := Returns [] |}.

(** The list queried after the create reply lacks the identifier. *)
Definition unlisted : environment :=
{| env_from_port := Returns tt;
   env_authenticate := Returns tt;
   env_generate := Returns sample_key;
   env_create := Returns {| service_id := Some "abc123" |};
   env_list_after_create := Returns [];
   env_sleeps := Some 2%nat;
   env_remove := Returns true;
   env_list_after_remove := Returns [] |}.

(** The list queried after the remove command still has the identifier. *)
Definition lingering : environment :=
{| env_from_port := Returns tt;
   env_authenticate := Returns tt;
   env_generate := Returns sample_key;
   env_create := Returns {| service_id := Some "abc123" |};
   env_list_after_create := Returns ["abc123"];
   env_sleeps := Some 2%nat;
   env_remove := Returns true;
   env_list_after_remove := Returns ["abc123"] |}.


(** The interruption arrives inside the create command. *)
Definition interrupted_early : environment :=
{| env_from_port := Returns tt;
   env_authenticate := Returns tt;
   env_generate := Returns sample_key;
   env_create := Raises KeyboardInterrupt;
   env_list_after_create := Returns ["abc123"];
   env_sleeps := Some 2%nat;
   env_remove := Returns true;
   env_list_after_remove := Returns [] |}.

End Samples.

Import PyBytes Base32 Base32Shape Keys Session Paths Samples.

(** ** Variations of a world, and more events to count *)

Module Variations.
Import Keys Session Paths.

(** The same world with another key generator. *)
Definition with_generate (g : outcome X25519PrivateKey) (env : environment)
  : environment :=
  {| env_from_port := env_from_port env;
     env_authenticate := env_authenticate env;
     env_generate := g;
     env_create := env_create env;
     env_list_after_create := env_list_after_create env;
     env_sleeps := env_sleeps env;
     env_remove := env_remove env;
     env_list_after_remove := env_list_after_remove env |}.

(** The same world with another outcome of the remove command. *)
Definition with_remove (o : outcome bool) (env : environment) : environment :=
  {| env_from_port := env_from_port env;
     env_authenticate := env_authenticate env;
     env_generate := env_generate env;
     env_create := env_create env;
     env_list_after_create := env_list_after_create env;
     env_sleeps := env_sleeps env;
     env_remove := o;
     env_list_after_remove := env_list_after_remove env |}.

(** The line printed after the [with] block, line 129. *)
Definition is_terminated (ev : event) : bool :=
  match ev with
  | Printed line => bool_decide (line = "Service terminated")
  | _ => false
  end.

(** A credential line, line 115. *)
Definition is_credential (ev : event) : bool :=
  match ev with
  | Printed line => starts_with "Client authentication key: " line
  | _ => false
  end.

(** The service was confirmed, the interruption arrived during the wait,
    the remove command returned and the list queried after it lacks the
    identifier. *)
Definition clean_teardown (env : environment) (public : bool) : Prop :=
  ∃ sid n removed services,
    confirmed env public sid
    ∧ env_sleeps env = Some n
    ∧ env_remove env = Returns removed
    ∧ env_list_after_remove env = Returns services
    ∧ sid ∉ services.

End Variations.

(** ** More sample runs *)

Module MoreSamples.
Import Keys Session Samples Variations.

(** The key generator is not available. *)
Definition no_entropy : environment :=
  with_generate (Raises UnsupportedAlgorithm) daemon.


(** The daemon answers the remove command with "was not running". *)
Definition already_gone : environment := with_remove (Returns false) daemon.

End MoreSamples.

Import Variations MoreSamples.

(** * Properties *)

(** ** Test vectors of RFC 4648, section 10 *)

Example rfc4648_vectors :
map (fun s => decode (b32encode (encode s)))
  ["";"f";"fo";"foo";"foob";"fooba";"foobar"]
= ["";"MY======";"MZXQ====";"MZXW6===";"MZXW6YQ=";"MZXW6YTB";"MZXW6YTBOI======"].
Proof. vm_compute. reflexivity. Qed.

Example rfc4648_vectors_decoded :
map b32decode
  ["";"MY======";"MZXQ====";"MZXW6===";"MZXW6YQ=";"MZXW6YTB";"MZXW6YTBOI======"]
= map (fun s => Some (encode s)) ["";"f";"fo";"foo";"foob";"fooba";"foobar"].
Proof. vm_compute. reflexivity. Qed.

Example b32decode_rejects :
map b32decode ["MY";"MY=====";"M1======";"MZXW6Y=="] = [None; None; None; None].
Proof. vm_compute. reflexivity. Qed.

(** ** Bytes and integers *)

Section Bytes.

Lemma to_int_bounds b : 0 <= to_int b < 256.
Proof.
  unfold to_int. pose proof (Byte.to_N_bounded b) as H.
  apply N2Z.inj_le in H. change (Z.of_N 255) with 255 in H. lia.
Qed.

Lemma of_int_to_int b : of_int (to_int b) = b.
Proof.
  unfold of_int. rewrite Z.mod_small by apply to_int_bounds.
  unfold to_int. rewrite N2Z.id, Byte.of_to_N. reflexivity.
Qed.

Lemma of_int_mod z b : z mod 256 = to_int b → of_int z = b.
Proof.
  intros H. transitivity (of_int (to_int b)); [| apply of_int_to_int].
  unfold of_int. rewrite H, (Z.mod_small (to_int b)) by apply to_int_bounds.
  reflexivity.
Qed.

Lemma to_int_zero : to_int "000"%byte = 0.
Proof. reflexivity. Qed.

Lemma to_bytes_length n z : length (to_bytes n z) = n.
Proof. induction n; simpl; congruence. Qed.

(** Five bytes survive the passage through their 40-bit integer. *)
Lemma to_bytes_from_bytes b0 b1 b2 b3 b4 :
  to_bytes 5 (from_bytes [b0; b1; b2; b3; b4]) = [b0; b1; b2; b3; b4].
Proof.
  pose proof (to_int_bounds b0). pose proof (to_int_bounds b1).
  pose proof (to_int_bounds b2). pose proof (to_int_bounds b3).
  pose proof (to_int_bounds b4).
  unfold to_bytes, from_bytes. simpl fold_left.
  repeat f_equal; apply of_int_mod; rewrite Z.shiftr_div_pow2 by lia;
    simpl Z.of_nat; simpl Z.mul; simpl Z.pow;
    Z.div_mod_to_equations; lia.
Qed.

End Bytes.

(** ** The base-32 alphabet *)

Section Alphabet.

Lemma b32rev_b32tab d : 0 <= d < 32 → b32rev (b32tab d) = Some d.
Proof.
  intros H. rewrite <- (Z2Nat.id d) by lia.
  assert (Hn : (Z.to_nat d < 32)%nat) by lia.
  revert Hn. generalize (Z.to_nat d) as n. clear H. intros n Hn.
  do 32 (destruct n as [|n]; [reflexivity|]). lia.
Qed.

Lemma b32tab_not_pad d : b32tab d ≠ pad.
Proof.
  unfold b32tab. generalize (Z.to_nat d) as n. intros n.
  do 32 (destruct n as [|n]; [discriminate|]).
  destruct n; discriminate.
Qed.

Lemma land_31 x : Z.land x 31 = x mod 32.
Proof. change 31 with (Z.ones 5). rewrite Z.land_ones by lia. reflexivity. Qed.

Lemma land_1023 x : Z.land x 1023 = x mod 1024.
Proof. change 1023 with (Z.ones 10). rewrite Z.land_ones by lia. reflexivity. Qed.

End Alphabet.

(** Turn shifts and masks into divisions and remainders for [lia]. *)
Ltac shifts_to_div :=
rewrite ?land_31, ?land_1023, ?Z.shiftr_div_pow2, ?Z.shiftl_mul_pow2 by lia;
repeat match goal with
  | |- context [2 ^ ?n] =>
      let v := eval cbv in (2 ^ n) in change (2 ^ n) with v
  end.

Ltac solve_div := shifts_to_div; Z.div_mod_to_equations; lia.

Section Quantum.

Lemma quantum_length c : length (quantum c) = 8%nat.
Proof. reflexivity. Qed.

Lemma quantum_not_pad c : Forall (λ b, b ≠ pad) (quantum c).
Proof. unfold quantum, b32tab2. repeat constructor; apply b32tab_not_pad. Qed.

(** Reading back the first [k] characters of a group gives the top
    [5 * k] bits of the group. *)
Lemma accumulate_quantum c k :
  0 <= c < 2 ^ 40 → (k <= 8)%nat →
  accumulate 0 (take k (quantum c)) = Some (Z.shiftr c (5 * (8 - Z.of_nat k))).
Proof.
  intros Hc Hk. change (2 ^ 40) with 1099511627776 in Hc.
  unfold quantum, b32tab2. cbn [app].
  do 9 (destruct k as [|k];
    [ cbn [firstn accumulate];
      rewrite ?b32rev_b32tab by solve_div;
      f_equal; cbn [Z.of_nat Pos.of_succ_nat Pos.succ Z.sub Z.mul Z.opp Z.add Z.pos_sub
                    Pos.mul Pos.add Pos.pred_double Pos.double_pred_mask Pos.sub_mask
                    Z.succ_double Z.pred_double Z.double];
      solve_div
    | ]).
  lia.
Qed.

End Quantum.

(** ** Lists taken five items at a time *)

Section Groups.
Context {A : Type}.

Lemma list_ind5 (P : list A → Prop) :
  P [] →
  (∀ a, P [a]) →
  (∀ a b, P [a; b]) →
  (∀ a b c, P [a; b; c]) →
  (∀ a b c d, P [a; b; c; d]) →
  (∀ a b c d e l, P l → P (a :: b :: c :: d :: e :: l)) →
  ∀ l, P l.
Proof.
  intros H0 H1 H2 H3 H4 H5 l.
  assert (Hlt : ∀ n (l : list A), (length l < n)%nat → P l).
  { induction n as [|n IH]; intros l' Hl; [lia|].
    destruct l' as [|a [|b [|c [|d [|e l']]]]]; auto.
    apply H5, IH. simpl in Hl. lia. }
  apply (Hlt (S (length l))). lia.
Qed.

End Groups.

Section Encoding.

Lemma from_bytes_range b0 b1 b2 b3 b4 :
  0 <= from_bytes [b0; b1; b2; b3; b4] < 2 ^ 40.
Proof.
  pose proof (to_int_bounds b0). pose proof (to_int_bounds b1).
  pose proof (to_int_bounds b2). pose proof (to_int_bounds b3).
  pose proof (to_int_bounds b4).
  unfold from_bytes. simpl fold_left. change (2 ^ 40) with 1099511627776. lia.
Qed.

Lemma quanta_length_ge s : s ≠ [] → (8 <= length (quanta s))%nat.
Proof.
  intros Hs. destruct s as [|a [|b [|c [|d [|e l]]]]]; try done; simpl; lia.
Qed.

Lemma set_tail_app k tail q e :
  (k <= length e)%nat → set_tail k tail (q ++ e) = q ++ set_tail k tail e.
Proof.
  intros Hk. unfold set_tail. rewrite length_app.
  replace (length q + length e - k)%nat with (length q + (length e - k))%nat by lia.
  rewrite take_app_add'; [|done]. by rewrite <- app_assoc.
Qed.

Lemma b32encode_group b0 b1 b2 b3 b4 rest :
  b32encode (b0 :: b1 :: b2 :: b3 :: b4 :: rest)
  = quantum (from_bytes [b0; b1; b2; b3; b4]) ++ b32encode rest.
Proof.
  unfold b32encode.
  replace (length (b0 :: b1 :: b2 :: b3 :: b4 :: rest) mod 5)%nat
    with (length rest mod 5)%nat.
  2:{ change (length (b0 :: b1 :: b2 :: b3 :: b4 :: rest))
        with (5 + length rest)%nat.
      symmetry. rewrite Nat.add_comm. apply (Nat.Div0.mod_add _ 1 5). }
  pose proof (Nat.mod_upper_bound (length rest) 5 ltac:(lia)) as Hlt.
  destruct (length rest mod 5)%nat as [|[|[|[|[|n]]]]] eqn:Hmod; try lia;
    cbn [bool_decide decide_rel Nat.eq_dec nat_rec nat_rect app quanta];
    try reflexivity;
    (rewrite bool_decide_eq_false_2 by lia);
    cbn [app quanta];
    (apply set_tail_app; etrans; [|apply quanta_length_ge];
     [simpl; lia | intros Hnil; apply app_eq_nil in Hnil as [_ Hnil]; discriminate]).
Qed.

(** An encoding is its data characters followed by the padding. *)
Lemma b32encode_data s :
  b32encode s = data s ++ replicate (npad (length s mod 5)) pad.
Proof.
  induction s as [|a|a b|a b c|a b c d|a b c d e l IH] using list_ind5;
    try reflexivity.
  rewrite b32encode_group, IH. cbn [data]. rewrite <- app_assoc.
  do 3 f_equal.
  change (length (a :: b :: c :: d :: e :: l)) with (5 + length l)%nat.
  rewrite Nat.add_comm. symmetry. f_equal. apply (Nat.Div0.mod_add _ 1 5).
Qed.

Lemma data_not_pad s : Forall (λ b, b ≠ pad) (data s).
Proof.
  induction s as [|a|a b|a b c|a b c d|a b c d e l IH] using list_ind5.
  - constructor.
  - apply Forall_take, quantum_not_pad.
  - apply Forall_take, quantum_not_pad.
  - apply Forall_take, quantum_not_pad.
  - apply Forall_take, quantum_not_pad.
  - cbn [data]. apply Forall_app. split; [apply quantum_not_pad | done].
Qed.

Lemma data_length s :
  (length (data s) mod 8 = (8 - npad (length s mod 5)) mod 8)%nat.
Proof.
  induction s as [|a|a b|a b c|a b c d|a b c d e l IH] using list_ind5;
    try reflexivity.
  cbn [data]. rewrite length_app, quantum_length.
  change (length (a :: b :: c :: d :: e :: l)) with (5 + length l)%nat.
  replace ((5 + length l) mod 5)%nat with (length l mod 5)%nat.
  2:{ symmetry. rewrite Nat.add_comm. apply (Nat.Div0.mod_add _ 1 5). }
  rewrite <- IH. rewrite Nat.add_comm. apply (Nat.Div0.mod_add _ 1 8).
Qed.

Lemma npad_cases n :
  (npad (n mod 5) ∈ [0; 1; 3; 4; 6]%nat) ∧ (npad (n mod 5) < 8)%nat.
Proof.
  pose proof (Nat.mod_upper_bound n 5 ltac:(lia)) as Hlt.
  destruct (n mod 5)%nat as [|[|[|[|[|k]]]]]; try lia;
    (split; [set_solver | simpl; lia]).
Qed.

Lemma b32encode_length s : (length (b32encode s) mod 8 = 0)%nat.
Proof.
  rewrite b32encode_data, length_app, length_replicate.
  pose proof (data_length s) as Hd. pose proof (npad_cases (length s)) as [_ Hn].
  rewrite <- Nat.Div0.add_mod_idemp_l, Hd.
  pose proof (Nat.mod_upper_bound (length s) 5 ltac:(lia)) as Hlt.
  destruct (length s mod 5)%nat as [|[|[|[|[|k]]]]]; try lia; reflexivity.
Qed.

End Encoding.

(** ** Stripping *)

Section Stripping.

Lemma rstrip_replicate chars n c : c ∈ chars → PyBytes.rstrip chars (replicate n c) = [].
Proof.
  intros Hc. induction n as [|n IH]; [done|].
  cbn [replicate PyBytes.rstrip]. rewrite IH. by rewrite bool_decide_eq_true_2.
Qed.

Lemma rstrip_app_replicate chars l n c :
  c ∈ chars → PyBytes.rstrip chars (l ++ replicate n c) = PyBytes.rstrip chars l.
Proof.
  intros Hc. induction l as [|a l IH]; cbn [app PyBytes.rstrip].
  - by apply rstrip_replicate.
  - by rewrite IH.
Qed.

Lemma rstrip_clean chars l :
  Forall (λ b, b ∉ chars) l → PyBytes.rstrip chars l = l.
Proof.
  induction 1 as [|a l Ha Hl IH]; [done|].
  cbn [PyBytes.rstrip]. rewrite IH.
  destruct l; [by rewrite bool_decide_eq_false_2 | done].
Qed.

Lemma not_pad_not_in (l : list byte) :
  Forall (λ b, b ≠ pad) l → Forall (λ b, b ∉ [pad]) l.
Proof. intros H. eapply Forall_impl; [exact H|]. intros b Hb Hin. apply Hb. by apply list_elem_of_singleton in Hin. Qed.

(** Stripping an encoding leaves exactly its data characters. *)
Lemma rstrip_b32encode s : PyBytes.rstrip [pad] (b32encode s) = data s.
Proof.
  rewrite b32encode_data, rstrip_app_replicate by set_solver.
  apply rstrip_clean, not_pad_not_in, data_not_pad.
Qed.

End Stripping.

(** ** Text and bytes *)

Section Text.

Lemma encode_decode l : encode (decode l) = l.
Proof. apply String.list_byte_of_string_of_list_byte. Qed.

Lemma encode_cons a s : encode (String a s) = byte_of_ascii a :: encode s.
Proof. reflexivity. Qed.

Lemma encode_app s1 s2 : encode (s1 +:+ s2) = encode s1 ++ encode s2.
Proof.
  induction s1 as [|a s1 IH]; [done|].
  change (encode (String a (s1 +:+ s2)) = encode (String a s1) ++ encode s2).
  rewrite !encode_cons, IH. done.
Qed.

Lemma encode_length s : length (encode s) = String.length s.
Proof.
  induction s as [|a s IH]; [done|].
  rewrite encode_cons. cbn [length String.length]. by rewrite IH.
Qed.

Lemma is_pad_char a : a = "="%char ↔ byte_of_ascii a = pad.
Proof.
  split; [intros ->; reflexivity|].
  intros H. rewrite <- (ascii_of_byte_of_ascii a), H. reflexivity.
Qed.

Lemma encode_rstrip s :
  encode (PyStr.rstrip "=" s) = PyBytes.rstrip [pad] (encode s).
Proof.
  induction s as [|a s IH]; [done|].
  rewrite encode_cons. cbn [PyStr.rstrip PyBytes.rstrip]. rewrite <- IH.
  destruct (PyStr.rstrip "=" s) as [|a' t]; [|done].
  change (encode "") with (@nil byte). cbv iota.
  destruct (decide (a = "="%char)) as [->|Hne].
  - rewrite !bool_decide_eq_true_2; [done | apply list_elem_of_here ..].
  - rewrite !bool_decide_eq_false_2; [done | |].
    + intros Hin. apply Hne, is_pad_char. by apply list_elem_of_singleton in Hin.
    + intros Hin. apply Hne. by apply list_elem_of_singleton in Hin.
Qed.

(** The text of a key, as bytes, is the data characters of its encoding. *)
Lemma encode_b32text keybytes : encode (b32text keybytes) = data keybytes.
Proof.
  unfold b32text. rewrite encode_rstrip, encode_decode. apply rstrip_b32encode.
Qed.

Lemma contains_encode c s :
  PyStr.contains c s → byte_of_ascii c ∈ encode s.
Proof.
  unfold PyStr.contains, encode, String.list_byte_of_string.
  intros H. apply list_elem_of_fmap. eauto.
Qed.

(** Restoring the padding of a key's text gives back the full encoding. *)
Lemma encode_restore_padding keybytes :
  encode (restore_padding (b32text keybytes)) = b32encode keybytes.
Proof.
  unfold restore_padding.
  rewrite encode_app, encode_decode, <- encode_length, encode_b32text.
  rewrite b32encode_data. f_equal. f_equal.
  pose proof (data_length keybytes) as Hd.
  pose proof (Nat.mod_upper_bound (length keybytes) 5 ltac:(lia)) as Hlt.
  rewrite Hd.
  destruct (length keybytes mod 5)%nat as [|[|[|[|[|k]]]]]; try lia; reflexivity.
Qed.

End Text.

(** ** Decoding *)

Section Decoding.

Lemma decode_quanta_short l :
  l ≠ [] → (length l < 8)%nat →
  decode_quanta l =
    match accumulate 0 l with
    | None => None
    | Some acc => Some (to_bytes 5 acc, acc)
    end.
Proof.
  intros Hne Hlen.
  destruct l as [|c0 [|c1 [|c2 [|c3 [|c4 [|c5 [|c6 [|c7 l]]]]]]]];
    try done. simpl in Hlen. lia.
Qed.

Lemma decode_quanta_group q rest :
  length q = 8%nat →
  decode_quanta (q ++ rest) =
    match accumulate 0 q with
    | None => None
    | Some acc =>
        match rest with
        | [] => Some (to_bytes 5 acc, acc)
        | _ =>
            match decode_quanta rest with
            | None => None
            | Some (d, last) => Some (to_bytes 5 acc ++ d, last)
            end
        end
    end.
Proof.
  intros Hlen.
  destruct q as [|c0 [|c1 [|c2 [|c3 [|c4 [|c5 [|c6 [|c7 [|c8 q]]]]]]]]];
    try discriminate. reflexivity.
Qed.

Lemma accumulate_whole c :
  0 <= c < 2 ^ 40 → accumulate 0 (quantum c) = Some c.
Proof.
  intros Hc. pose proof (accumulate_quantum c 8 Hc ltac:(lia)) as H.
  rewrite firstn_all2 in H by (rewrite quantum_length; lia).
  rewrite H. f_equal.
Qed.

Lemma data_nil s : data s = [] → s = [].
Proof. destruct s as [|a [|b [|c [|d [|e l]]]]]; done. Qed.

Lemma set_tail_exact tail l :
  length l = 5%nat → set_tail 5 tail l = tail.
Proof. intros H. unfold set_tail. rewrite H. reflexivity. Qed.

(** A last group of one to four bytes, zero-filled to [b0 .. b4]: the
    [8 - p] characters kept decode to the bytes before the fill. *)
Lemma decode_last b0 b1 b2 b3 b4 (n p : nat) :
  let c := from_bytes [b0; b1; b2; b3; b4] in
  (n, p) ∈ [(1, 6); (2, 4); (3, 3); (4, 1)]%nat →
  c mod 2 ^ (5 * Z.of_nat p) = 0 →
  ∃ decoded acc,
    decode_quanta (take (8 - p) (quantum c)) = Some (decoded, acc)
    ∧ length decoded = 5%nat
    ∧ unpad p decoded acc = take n [b0; b1; b2; b3; b4].
Proof.
  intros c Hnp Hlow.
  pose proof (from_bytes_range b0 b1 b2 b3 b4) as Hc. fold c in Hc.
  assert (Hp : (1 <= p <= 6)%nat).
  { repeat (apply elem_of_cons in Hnp as [[= -> ->]|Hnp]; [lia|]).
    by apply elem_of_nil in Hnp. }
  rewrite decode_quanta_short.
  2:{ intros Hnil. apply (f_equal length) in Hnil.
      rewrite length_take, quantum_length in Hnil. simpl in Hnil. lia. }
  2:{ rewrite length_take, quantum_length. lia. }
  rewrite accumulate_quantum by (done || lia).
  eexists _, _. split; [reflexivity|]. split; [apply to_bytes_length|].
  unfold unpad.
  rewrite bool_decide_eq_false_2 by lia.
  rewrite bool_decide_eq_false_2 by (intros Hnil; apply (f_equal length) in Hnil;
                                     rewrite to_bytes_length in Hnil; discriminate).
  cbn [negb andb].
  replace (Z.shiftl (Z.shiftr c (5 * (8 - Z.of_nat (8 - p)))) (5 * Z.of_nat p)) with c.
  2:{ replace (8 - Z.of_nat (8 - p)) with (Z.of_nat p) by lia.
      rewrite Z.shiftr_div_pow2, Z.shiftl_mul_pow2 by lia.
      apply Z.div_exact in Hlow; lia. }
  subst c. rewrite to_bytes_from_bytes, set_tail_exact by apply to_bytes_length.
  repeat (apply elem_of_cons in Hnp as [[= -> ->]|Hnp]; [reflexivity|]).
  by apply elem_of_nil in Hnp.
Qed.

Lemma unpad_app p five d acc :
  (5 <= length d)%nat → unpad p (five ++ d) acc = five ++ unpad p d acc.
Proof.
  intros Hd. unfold unpad.
  destruct d as [|x d]; [simpl in Hd; lia|].
  destruct (bool_decide (p = 0%nat)); cbn [negb andb]; [done|].
  rewrite !bool_decide_eq_false_2; [|done|by destruct five].
  cbn [negb]. by apply set_tail_app.
Qed.

Local Ltac low_bits :=
  unfold from_bytes; simpl fold_left; change (to_int "000"%byte) with 0; solve_div.

(** Decoding the data characters of [s] and undoing the padding gives
    [s] back. *)
Lemma decode_quanta_data s :
  ∃ decoded acc,
    decode_quanta (data s) = Some (decoded, acc)
    ∧ (s ≠ [] → (5 <= length decoded)%nat)
    ∧ unpad (npad (length s mod 5)) decoded acc = s.
Proof.
  induction s as [|a|a b|a b c|a b c d|a b c d e l IH] using list_ind5.
  - by exists [], 0.
  - destruct (decode_last a "000" "000" "000" "000" 1 6) as (dec & acc & H1 & H2 & H3);
      [set_solver | low_bits |].
    exists dec, acc. split; [exact H1|]. split; [lia | exact H3].
  - destruct (decode_last a b "000" "000" "000" 2 4) as (dec & acc & H1 & H2 & H3);
      [set_solver | low_bits |].
    exists dec, acc. split; [exact H1|]. split; [lia | exact H3].
  - destruct (decode_last a b c "000" "000" 3 3) as (dec & acc & H1 & H2 & H3);
      [set_solver | low_bits |].
    exists dec, acc. split; [exact H1|]. split; [lia | exact H3].
  - destruct (decode_last a b c d "000" 4 1) as (dec & acc & H1 & H2 & H3);
      [set_solver | low_bits |].
    exists dec, acc. split; [exact H1|]. split; [lia | exact H3].
  - destruct IH as (dec & acc & H1 & H2 & H3).
    cbn [data]. rewrite decode_quanta_group by apply quantum_length.
    rewrite accumulate_whole by apply from_bytes_range.
    rewrite to_bytes_from_bytes.
    replace (length (a :: b :: c :: d :: e :: l) mod 5)%nat
      with (length l mod 5)%nat.
    2:{ change (length (a :: b :: c :: d :: e :: l)) with (5 + length l)%nat.
        symmetry. rewrite Nat.add_comm. apply (Nat.Div0.mod_add _ 1 5). }
    destruct (data l) as [|x t] eqn:Hdata.
    + apply data_nil in Hdata as ->.
      eexists _, _. split; [reflexivity|]. split; [simpl; lia | reflexivity].
    + assert (Hl : l ≠ []) by (intros ->; discriminate).
      rewrite H1. eexists _, _. split; [reflexivity|].
      split; [rewrite length_app; simpl; lia|].
      rewrite (unpad_app _ [a; b; c; d; e]) by auto. by rewrite H3.
Qed.

(** [b32decode] undoes [b32encode]. *)
Lemma b32decode_b32encode text s :
  encode text = b32encode s → b32decode text = Some s.
Proof.
  intros Htext. unfold b32decode. rewrite Htext.
  rewrite bool_decide_eq_true_2 by apply b32encode_length. cbn [negb].
  rewrite rstrip_b32encode.
  destruct (decode_quanta_data s) as (dec & acc & H1 & _ & H3). rewrite H1.
  replace (length (b32encode s) - length (data s))%nat
    with (npad (length s mod 5)).
  2:{ rewrite b32encode_data, length_app, length_replicate. lia. }
  rewrite bool_decide_eq_true_2 by apply npad_cases. cbn [negb].
  by rewrite H3.
Qed.

End Decoding.

(** ** The key provisioner *)

Section KeyProvisioner.

Lemma b32text_unpadded keybytes : ¬ PyStr.contains "=" (b32text keybytes).
Proof.
  intros H%contains_encode. rewrite encode_b32text in H.
  pose proof (data_not_pad keybytes) as Hd.
  rewrite Forall_forall in Hd. by apply (Hd _ H).
Qed.

Lemma b32text_round_trip keybytes :
  b32decode (restore_padding (b32text keybytes)) = Some keybytes.
Proof. apply b32decode_b32encode, encode_restore_padding. Qed.

End KeyProvisioner.

(** C8. The text [encode_keys] gives depends on the raw key bytes only: two
    key pairs with the same raw bytes get the same two texts. Neither the
    private-key text nor the public-key text contains the character [=]. *)
Theorem encode_keys_deterministic_unpadded
    (private_key private_key' : X25519PrivateKey)
    (public_key public_key' : X25519PublicKey) :
  private_bytes private_key = private_bytes private_key' →
  public_bytes public_key = public_bytes public_key' →
  encode_keys private_key public_key = encode_keys private_key' public_key'
  ∧ ¬ PyStr.contains "=" (fst (encode_keys private_key public_key))
  ∧ ¬ PyStr.contains "=" (snd (encode_keys private_key public_key)).
Proof.
  intros Hpriv Hpub. unfold encode_keys. rewrite Hpriv, Hpub.
  split; [reflexivity|]. cbn [fst snd]. rewrite <- Hpriv, <- Hpub.
  split; apply b32text_unpadded.
Qed.

(** C9. For every key pair, filling each text up with [=] to a multiple of
    eight characters and decoding it with [b32decode] gives back the raw
    bytes of the key. *)
Theorem encode_keys_round_trip
    (private_key : X25519PrivateKey) (public_key : X25519PublicKey) :
  b32decode (restore_padding (fst (encode_keys private_key public_key)))
    = Some (private_bytes private_key)
  ∧ b32decode (restore_padding (snd (encode_keys private_key public_key)))
    = Some (public_bytes public_key).
Proof. split; apply b32text_round_trip. Qed.

(** ** The ways a run can go *)

Section Runs.

Lemma while_true_sleep_trace n :
  while_true_sleep n = (replicate (S n) (Slept 1000), Raised KeyboardInterrupt).
Proof.
  induction n as [|n IH]; [reflexivity|].
  cbn [while_true_sleep]. rewrite IH. reflexivity.
Qed.

Ltac run_unfold :=
  cbv [start_ephemeral_service session with_controller authenticate generate_key_pair
       create_ephemeral_hidden_service list_ephemeral_hidden_services
       remove_ephemeral_hidden_service assert_service_id py_assert wait
       try_except_KeyboardInterrupt print emit call raise ret
       mbind mret prog_bind prog_ret bind
       generate_x25519_key_pair negb
       env_from_port env_authenticate env_generate env_create env_list_after_create
       env_sleeps env_remove env_list_after_remove service_id].

Ltac run_reduce :=
  run_unfold;
  rewrite ?while_true_sleep_trace;
  repeat match goal with
    | H : _ ≠ _ |- _ => rewrite (bool_decide_eq_false_2 _ H)
    | H : _ ∈ _ |- _ => rewrite (bool_decide_eq_true_2 _ H)
    | H : _ ∉ _ |- _ => rewrite (bool_decide_eq_false_2 _ H)
    end;
  run_unfold.

Lemma run_shape_eq env lp hsp public pw t t' c :
  run_shape env lp hsp public pw (t', c) → t' = t →
  run_shape env lp hsp public pw (t, c).
Proof. by intros H <-. Qed.

Ltac same_trace :=
  cbv [interrupted exposed requested opening];
  repeat (progress (cbn [app]; rewrite <- ?app_assoc)); reflexivity.

Ltac with_sid k :=
  match goal with Hs : ?sid ≠ "" |- _ => k sid end.
Ltac with_sleeps k :=
  match goal with |- context [replicate (S ?n) (Slept _)] => k n end.

Ltac shape_of tac := eapply run_shape_eq; [tac; eauto; done | same_trace].

(** The run once the keys are settled: from the create command on. *)
Ltac from_create Hauth Hkeys ac0 key0 :=
  match goal with
  | |- run_shape (Build_environment _ _ _ ?cr ?l1 ?sl ?rm ?l2) _ _ _ _ _ =>
      destruct cr as [[[sid|]]|e];
      [ destruct (decide (sid = "")) as [->|Hsid]
      | | ];
      [ run_unfold; shape_of ltac:(eapply no_identifier with (ac:=ac0) (key:=key0))
      |
      | run_unfold; shape_of ltac:(eapply no_identifier with (ac:=ac0) (key:=key0))
      | run_unfold; shape_of ltac:(eapply create_failed with (ac:=ac0) (key:=key0)) ];
      match goal with
      | Hs : ?sid ≠ "" |- run_shape ?env _ _ ?public _ _ =>
        assert (Hcreated : created env public sid)
          by (repeat split; try done; first [by left | right; eauto]) end;
      destruct l1 as [services|e];
      [ destruct (decide (sid ∈ services)) as [Hin|Hout] | ];
      [
      | run_reduce; with_sid ltac:(fun s0 =>
          shape_of ltac:(eapply not_listed with (ac:=ac0) (key:=key0) (sid:=s0)))
      | run_reduce; with_sid ltac:(fun s0 =>
          shape_of ltac:(eapply list_failed with (ac:=ac0) (key:=key0) (sid:=s0))) ];
      match goal with
      | Hs : ?sid ≠ "", Hi : ?sid ∈ ?services |- run_shape ?env _ _ ?public _ _ =>
        assert (Hconfirmed : confirmed env public sid)
          by (split; [done | by exists services]) end;
      destruct sl as [n|];
      [ | run_reduce; with_sid ltac:(fun s0 =>
            shape_of ltac:(eapply waiting with (ac:=ac0) (key:=key0) (sid:=s0))) ];
      destruct rm as [removed|e];
      [ | run_reduce; with_sid ltac:(fun s0 => with_sleeps ltac:(fun n0 =>
            shape_of ltac:(eapply remove_failed
                             with (ac:=ac0) (key:=key0) (sid:=s0) (n:=n0)))) ];
      destruct l2 as [services'|e];
      [ destruct (decide (sid ∈ services')) as [Hin'|Hout'] | ];
      [ run_reduce; with_sid ltac:(fun s0 => with_sleeps ltac:(fun n0 =>
          shape_of ltac:(eapply still_listed
                           with (ac:=ac0) (key:=key0) (sid:=s0) (n:=n0))))
      | run_reduce; with_sid ltac:(fun s0 => with_sleeps ltac:(fun n0 =>
          shape_of ltac:(eapply clean
                           with (ac:=ac0) (key:=key0) (sid:=s0) (n:=n0))))
      | run_reduce; with_sid ltac:(fun s0 => with_sleeps ltac:(fun n0 =>
          shape_of ltac:(eapply second_list_failed
                           with (ac:=ac0) (key:=key0) (sid:=s0) (n:=n0)))) ]
  end.

Lemma run_shape_start env lp hsp public pw :
  run_shape env lp hsp public pw (start_ephemeral_service env lp hsp public pw).
Proof.
  destruct env as [fp au ge cr l1 sl rm l2].
  destruct fp as [[]|e]; [|run_unfold; by apply connect_failed].
  destruct au as [[]|e]; [|run_unfold; by apply authenticate_failed].
  match goal with |- run_shape ?env _ _ _ _ _ =>
    assert (Hauth : authenticated env) by done end.
  destruct public.
  - match goal with |- run_shape ?env _ _ _ _ _ =>
      assert (Hkeys : keys_are env true ∅ "") by (by left) end.
    from_create Hauth Hkeys (∅ : gmap string value) "".
  - destruct ge as [fresh|e]; [|run_unfold; by apply generate_failed].
    match goal with |- run_shape ?env _ _ _ _ _ =>
      assert (Hkeys : keys_are env false
                {["client_auth_v3" := VStr (snd (encode_keys fresh (public_key fresh)))]}
                (fst (encode_keys fresh (public_key fresh))))
        by (right; split; [done|]; by exists fresh) end.
    from_create Hauth Hkeys
      ({["client_auth_v3" := VStr (snd (encode_keys fresh (public_key fresh)))]}
         : gmap string value)
      (fst (encode_keys fresh (public_key fresh))).
Qed.

End Runs.

(** ** Counting events *)

Section Counting.

Lemma count_nil p : count p [] = 0%nat.
Proof. reflexivity. Qed.

Lemma count_cons p ev t :
  count p (ev :: t) = ((if p ev then 1 else 0) + count p t)%nat.
Proof.
  unfold count. destruct (p ev) eqn:Hp.
  - rewrite filter_cons_True by done. reflexivity.
  - rewrite filter_cons_False by (rewrite Hp; discriminate). reflexivity.
Qed.

Lemma count_app p t1 t2 : count p (t1 ++ t2) = (count p t1 + count p t2)%nat.
Proof. unfold count. by rewrite filter_app, length_app. Qed.

Lemma count_replicate p n ev : p ev = false → count p (replicate n ev) = 0%nat.
Proof.
  intros Hp. induction n as [|n IH]; [done|].
  cbn [replicate]. rewrite count_cons, Hp. exact IH.
Qed.

Lemma count_zero_not_in p ev t : count p t = 0%nat → p ev = true → ¬ In ev t.
Proof.
  induction t as [|x t IH]; [auto|].
  rewrite count_cons. intros Hc Hp [->|Hin].
  - rewrite Hp in Hc. lia.
  - apply IH; [lia | done | done].
Qed.

End Counting.

(** ** The lines printed *)

Section Lines.

Lemma address_line_exposure lp sid hsp : is_exposure (Printed (address_line lp sid hsp)) = true.
Proof. reflexivity. Qed.

Lemma credential_line_exposure key : is_exposure (Printed (credential_line key)) = true.
Proof. reflexivity. Qed.

Lemma address_line_not_caught lp sid hsp : is_caught (Printed (address_line lp sid hsp)) = false.
Proof. reflexivity. Qed.

Lemma credential_line_not_caught key : is_caught (Printed (credential_line key)) = false.
Proof. reflexivity. Qed.

Lemma address_line_not_waiting lp sid hsp : is_waiting (Printed (address_line lp sid hsp)) = false.
Proof. reflexivity. Qed.

Lemma credential_line_not_waiting key : is_waiting (Printed (credential_line key)) = false.
Proof. reflexivity. Qed.

End Lines.

(** ** Reading a run by its shape *)

(** Bring the facts about the environment to the surface and merge the
    equations that speak about the same call. *)
Ltac env_facts :=
  unfold confirmed, created, authenticated, interrupted_before_wait,
    keys_ready, keys_are in *;
  repeat match goal with
    | H : _ ∧ _ |- _ => destruct H
    | H : ∃ _, _ |- _ => destruct H
    | H : _ ∨ _ |- _ => destruct H
    end;
  repeat match goal with
    | H1 : ?a = _, H2 : ?a = _ |- _ => rewrite H1 in H2
    end;
  simplify_eq; cbn [service_id] in *; simplify_eq.

(** Case analysis on the way the run of the goal goes. *)
Ltac by_shape r :=
  let Hshape := fresh "Hshape" in
  match goal with
  | r' := start_ephemeral_service ?env ?lp ?hsp ?public ?pw |- _ =>
      constr_eq r r';
      pose proof (run_shape_start env lp hsp public pw) as Hshape;
      change (start_ephemeral_service env lp hsp public pw) with r in Hshape;
      clearbody r; destruct Hshape;
      cbv [trace completed exit_status fst snd] in *
  end.

(** Count the events of a trace made of known pieces. *)
Ltac count_trace :=
  cbv [interrupted exposed requested opening]; cbn [app tail];
  repeat match goal with |- context [if ?b then _ else _] => is_var b; destruct b end;
  repeat first
    [ rewrite count_app | rewrite count_cons | rewrite count_nil
    | rewrite count_replicate by reflexivity ];
  repeat match goal with
    | |- context [if ?c then 1%nat else 0%nat] =>
        let v := eval lazy in c in change c with v; cbv iota
    end;
  cbn [Nat.add]; try reflexivity.

(** C7. When the connection is open and the daemon rejects the credential,
    the process sends nothing but the authentication command, closes the
    connection and ends with status 1: no create command is ever sent. *)
Theorem authentication_rejected env lp hsp public pw :
  let r := start_ephemeral_service env lp hsp public pw in
  env_from_port env = Returns tt →
  env_authenticate env = Raises AuthenticationFailure →
  trace r = [Opened; Sent (AUTHENTICATE pw); Closed]
  ∧ count is_create (trace r) = 0%nat
  ∧ completed r = Raised AuthenticationFailure
  ∧ exit_status r = Some 1.
Proof.
  intros r Hopen Hauth. by_shape r; env_facts.
  repeat split.
Qed.

Lemma in_replicate_eq {A} (x y : A) n : In x (replicate n y) → x = y.
Proof. induction n as [|n IH]; [done|]. intros [<-|H]; auto. Qed.

(** Split a membership in a trace made of known pieces into its cases. *)
Ltac in_cases H :=
  cbv [interrupted exposed requested opening] in H;
  repeat match type of H with
    | In _ (if ?b then _ else _) => destruct b
    | In _ (_ ++ _) => apply in_app_or in H as [H|H]
    | In _ (replicate _ _) => apply in_replicate_eq in H
    | In _ (_ :: _) => destruct H as [H|H]
    | In _ [] => destruct H
    end.

Ltac assoc_trace :=
  cbv [interrupted];
  repeat (progress (cbn [app]; rewrite <- ?app_assoc)); reflexivity.

(** C10. When the first interruption arrives inside a call made before the
    wait (authentication, key generation, the create command or the list
    query that follows it), the handler of the wait does not run: its line is
    not printed and no remove command is sent. The connection is closed,
    once and last, and the process ends with status 1. *)
Theorem interrupt_before_wait env lp hsp public pw :
  let r := start_ephemeral_service env lp hsp public pw in
  interrupted_before_wait env public →
  count is_remove (trace r) = 0%nat
  ∧ count is_caught (trace r) = 0%nat
  ∧ (∃ body, trace r = Opened :: body ++ [Closed] ∧ count is_closed body = 0%nat)
  ∧ completed r = Raised KeyboardInterrupt
  ∧ exit_status r = Some 1.
Proof.
  intros r (Hopen & Hint).
  by_shape r; env_facts.
  all: (split; [count_trace|]); (split; [count_trace|]).
  all: (split; [|done]).
  all: match goal with |- ∃ _, ?t ++ [Closed] = _ ∧ _ => exists (tail t) end.
  all: split; [reflexivity | cbn [tail]; count_trace].
Qed.

(** C5. Whenever the connection was opened and the process exits, in
    whatever way, the trace is the opening, the events of the session, the
    closing, and at most the last line printed after the block: the
    connection is closed exactly once, after everything sent through it. When
    the connection cannot be opened there is nothing to close. *)
Theorem connection_closed_on_every_exit env lp hsp public pw :
  let r := start_ephemeral_service env lp hsp public pw in
  exit_status r ≠ None →
  match env_from_port env with
  | Raises e => trace r = [] ∧ completed r = Raised e
  | Returns _ =>
      ∃ body tail,
        trace r = Opened :: body ++ Closed :: tail
        ∧ count is_opened body = 0%nat
        ∧ count is_closed body = 0%nat
        ∧ count is_closed (trace r) = 1%nat
        ∧ (tail = [] ∨ tail = [Printed "Service terminated"])
  end.
Proof.
  intros r Hexit.
  by_shape r; env_facts;
    repeat match goal with H : env_from_port _ = _ |- _ => rewrite H end;
    try done.
  all: try match goal with
    | |- ∃ _ _, ?t ++ [Closed] = _ ∧ _ =>
        exists (tail t), []; split; [reflexivity|]
    | |- ∃ _ _, ?t ++ [?a; Closed] = _ ∧ _ =>
        exists (tail t ++ [a]), []; split; [by rewrite <- app_assoc|]
    | |- ∃ _ _, ?t ++ [?a; Closed; ?b] = _ ∧ _ =>
        exists (tail t ++ [a]), [b]; split; [by rewrite <- app_assoc|]
    end.
  all: repeat split; try count_trace; auto.
Qed.

(** C2. When the service is confirmed and the interruption arrives during
    the wait, the handler runs, the remove command is sent for the
    identifier of the create reply, and the list is queried again; when the
    identifier is gone from it, the connection is closed, the last line is
    printed and the process ends with status 0. Nothing was removed or
    closed before. *)
Theorem interrupt_during_wait env lp hsp public pw sid n removed services :
  let r := start_ephemeral_service env lp hsp public pw in
  confirmed env public sid →
  env_sleeps env = Some n →
  env_remove env = Returns removed →
  env_list_after_remove env = Returns services →
  sid ∉ services →
  (∃ before,
     trace r =
       before
       ++ Printed "Press Ctrl+C to interrupt..." :: replicate (S n) (Slept 1000)
       ++ [Printed "Ctrl+C pressed. Exiting..."; Sent (DEL_ONION sid);
           Sent GETINFO_onions; Closed; Printed "Service terminated"]
     ∧ count is_remove before = 0%nat
     ∧ count is_closed before = 0%nat)
  ∧ completed r = Normal tt
  ∧ exit_status r = Some 0.
Proof.
  intros r Hconf Hsleep Hremove Hlist Habsent.
  by_shape r; env_facts.
  all: split; [|done].
  all: match goal with
    | |- ∃ _, interrupted ?lp ?hsp ?pub ?pw ?ac ?key ?sid ?n ++ _ = _ ∧ _ =>
        exists (exposed lp hsp pub pw ac key sid)
    end.
  all: split; [assoc_trace | split; count_trace].
Qed.


(** C6. Each of the three inconsistencies ends the run with an
    [AssertionError] and status 1, and nothing is sent again. (1) A create
    reply without identifier: the trace is the opening, the authentication
    and create commands and the closing. (2) An identifier missing from the
    list queried after the create reply: the trace ends with that query and
    the closing, and no remove command is sent. (3) An identifier still in
    the list queried after the remove command returned: the trace ends with
    the remove command, that query and the closing. *)
Theorem protocol_inconsistency_fatal env lp hsp public pw :
  let r := start_ephemeral_service env lp hsp public pw in
  (∀ response,
     authenticated env → keys_ready env public →
     env_create env = Returns response →
     service_id response = None ∨ service_id response = Some "" →
     ∃ ac key,
       keys_are env public ac key
       ∧ trace r = requested lp hsp pw ac ++ [Closed]
       ∧ count is_sent (trace r) = 2%nat
       ∧ completed r = Raised AssertionError ∧ exit_status r = Some 1)
  ∧ (∀ sid services,
       created env public sid →
       env_list_after_create env = Returns services → sid ∉ services →
       ∃ ac key,
         keys_are env public ac key
         ∧ trace r = exposed lp hsp public pw ac key sid ++ [Closed]
         ∧ count is_sent (trace r) = 3%nat
         ∧ count is_remove (trace r) = 0%nat
         ∧ completed r = Raised AssertionError ∧ exit_status r = Some 1)
  ∧ (∀ sid n removed services,
       confirmed env public sid → env_sleeps env = Some n →
       env_remove env = Returns removed →
       env_list_after_remove env = Returns services → sid ∈ services →
       ∃ ac key,
         keys_are env public ac key
         ∧ trace r =
             interrupted lp hsp public pw ac key sid n
             ++ [Sent GETINFO_onions; Closed]
         ∧ count is_sent (trace r) = 5%nat
         ∧ count is_remove (trace r) = 1%nat
         ∧ completed r = Raised AssertionError ∧ exit_status r = Some 1).
Proof.
  intros r. split; [|split].
  - intros response Hauth Hkeys Hcreate Hid.
    by_shape r; try (exfalso; env_facts; fail).
    exists ac, key. repeat split; try done; count_trace.
  - intros sid services Hcreated Hlist Hout.
    by_shape r; try (exfalso; env_facts; fail).
    assert (sid0 = sid) as -> by (env_facts; done).
    exists ac, key. repeat split; try done; count_trace.
  - intros sid n removed services Hconf Hsleep Hremove Hlist Hin.
    by_shape r; try (exfalso; env_facts; fail).
    assert (sid0 = sid ∧ n0 = n) as [-> ->] by (env_facts; done).
    exists ac, key. repeat split; try done; count_trace.
Qed.

(** ** The keyword dictionary *)

Section Configuration.

Lemma configuration_public hsp lp :
  let kwargs := hidden_service_configuration hsp lp ∅ in
  kwargs !! "await_publication" = Some (VBool true)
  ∧ kwargs !! "ports" = Some (VPorts {[hsp := lp]})
  ∧ kwargs !! "client_auth_v3" = None
  ∧ dom kwargs = {["ports"; "await_publication"]}.
Proof.
  cbv zeta. unfold hidden_service_configuration, dict_or.
  rewrite (left_id_L ∅ (∪)).
  split; [by simplify_map_eq|]. split; [by simplify_map_eq|].
  split; [by simplify_map_eq|].
  rewrite dom_insert_L, dom_singleton_L. done.
Qed.

Lemma configuration_private hsp lp text :
  let kwargs :=
    hidden_service_configuration hsp lp {["client_auth_v3" := VStr text]} in
  kwargs !! "await_publication" = Some (VBool true)
  ∧ kwargs !! "ports" = Some (VPorts {[hsp := lp]})
  ∧ kwargs !! "client_auth_v3" = Some (VStr text)
  ∧ dom kwargs = {["ports"; "await_publication"; "client_auth_v3"]}.
Proof.
  cbv zeta. unfold hidden_service_configuration, dict_or.
  split; [|split; [|split]].
  - rewrite lookup_union_r by done. by simplify_map_eq.
  - rewrite lookup_union_r by done. by simplify_map_eq.
  - rewrite lookup_union_l by done. by simplify_map_eq.
  - rewrite dom_union_L, dom_insert_L, !dom_singleton_L. set_solver.
Qed.

End Configuration.

(** C1. Every create command a run sends carries a dictionary in which
    [await_publication] is true and [ports] maps the hidden-service port, and
    nothing else, to the local port. In public mode the dictionary has these
    two entries only, so no client-auth key. Otherwise it has one more entry,
    [client_auth_v3], whose value is the public-key text [encode_keys] gives
    for the key pair generated in this run. *)
Theorem create_request_shape env lp hsp public pw kwargs :
  let r := start_ephemeral_service env lp hsp public pw in
  In (Sent (ADD_ONION kwargs)) (trace r) →
  kwargs !! "await_publication" = Some (VBool true)
  ∧ kwargs !! "ports" = Some (VPorts {[hsp := lp]})
  ∧ if public
    then kwargs !! "client_auth_v3" = None
         ∧ dom kwargs = {["ports"; "await_publication"]}
    else ∃ fresh,
           env_generate env = Returns fresh
           ∧ kwargs !! "client_auth_v3"
             = Some (VStr (snd (uncurry encode_keys (generate_x25519_key_pair fresh))))
           ∧ dom kwargs = {["ports"; "await_publication"; "client_auth_v3"]}.
Proof.
  intros r Hin.
  by_shape r; env_facts; in_cases Hin; simplify_eq.
  all: first
    [ destruct (configuration_public hsp lp) as (? & ? & ? & ?); by repeat split
    | match goal with
      | Hgen : env_generate _ = Returns ?fresh |- _ =>
          destruct (configuration_private hsp lp
                      (snd (encode_keys fresh (public_key fresh))))
            as (? & ? & ? & ?);
          repeat split; try done; by exists fresh
      end ].
Qed.

(** C4, as the code has it. An address line or a credential line is printed
    only in a run whose create reply carries an identifier, and then the
    trace starts with the opening, the authentication and create commands,
    the line announcing the service, the address line and, outside public
    mode, the credential line, followed by the first list query: the lines
    come after the create reply and before the list is queried, and nowhere
    else. When the identifier is then missing from the list, the address line
    has been printed, the run ends with an [AssertionError] and status 1, the
    wait is not entered and no remove command is sent. *)
Theorem exposure_after_create_reply env lp hsp public pw :
  let r := start_ephemeral_service env lp hsp public pw in
  ((∃ ev, In ev (trace r) ∧ is_exposure ev = true) →
   ∃ sid ac key rest,
     created env public sid ∧ keys_are env public ac key
     ∧ trace r =
         [Opened; Sent (AUTHENTICATE pw);
          Sent (ADD_ONION (hidden_service_configuration hsp lp ac));
          Printed "Ephemeral hidden service created";
          Printed (address_line lp sid hsp)]
         ++ (if public then [] else [Printed (credential_line key)])
         ++ Sent GETINFO_onions :: rest
     ∧ count is_exposure rest = 0%nat)
  ∧ (∀ sid services,
       created env public sid →
       env_list_after_create env = Returns services → sid ∉ services →
       In (Printed (address_line lp sid hsp)) (trace r)
       ∧ count is_waiting (trace r) = 0%nat
       ∧ count is_remove (trace r) = 0%nat
       ∧ completed r = Raised AssertionError
       ∧ exit_status r = Some 1).
Proof.
  intros r. split.
  - intros (ev & Hin & Hexp).
    by_shape r; try (exfalso; in_cases Hin; subst ev; lazy in Hexp; discriminate).
    all: cbv [interrupted].
    all: match goal with
      | Hk : keys_are _ _ ?ac ?key
        |- context [(exposed _ _ _ _ ?ac ?key ?sid ++ ?mid) ++ ?last] =>
          exists sid, ac, key, (mid ++ last)
      | Hk : keys_are _ _ ?ac ?key
        |- context [exposed _ _ _ _ ?ac ?key ?sid ++ ?last] =>
          exists sid, ac, key, last
      end.
    all: split;
      [first [assumption
             | match goal with H : confirmed _ _ _ |- _ => exact (proj1 H) end]|];
      split; [done|].
    all: clear Hin; env_facts.
    all: split; [cbv [exposed requested opening];
                 repeat (progress (cbn [app]; rewrite <- ?app_assoc)); reflexivity|].
    all: count_trace.
  - intros sid services Hcreated Hlist Hout.
    by_shape r; try (exfalso; env_facts; fail).
    assert (sid0 = sid) as -> by (env_facts; done).
    split; [|repeat split; count_trace].
    cbv [exposed requested opening]. cbn [app In]. tauto.
Qed.

(** ** The scenarios of the specification, run *)

Example scenario_A :
  let r := start_ephemeral_service daemon 8080 80 true None in
  In (Printed "localhost:8080 is exposed at abc123.onion:80") (trace r)
  ∧ count is_exposure (trace r) = 1%nat
  ∧ exit_status r = Some 0.
Proof. vm_compute. tauto. Qed.

Example scenario_B :
  let r := start_ephemeral_service daemon 8080 80 false None in
  In (Printed "localhost:8080 is exposed at abc123.onion:80") (trace r)
  ∧ In (Printed "Client authentication key: AEAQCAIBAEAQCAIBAEAQCAIBAEAQCAIBAEAQCAIBAEAQCAIBAEAQ")
       (trace r)
  ∧ exit_status r = Some 0.
Proof. vm_compute. tauto. Qed.

Example scenario_D :
  let r := start_ephemeral_service unlisted 8080 80 true None in
  trace r =
    [Opened; Sent (AUTHENTICATE None);
     Sent (ADD_ONION (hidden_service_configuration 80 8080 ∅));
     Printed "Ephemeral hidden service created";
     Printed "localhost:8080 is exposed at abc123.onion:80";
     Sent GETINFO_onions; Closed]
  ∧ completed r = Raised AssertionError.
Proof. vm_compute. tauto. Qed.

Example scenario_E :
  let r := start_ephemeral_service daemon 8080 80 true None in
  trace r =
    [Opened; Sent (AUTHENTICATE None);
     Sent (ADD_ONION (hidden_service_configuration 80 8080 ∅));
     Printed "Ephemeral hidden service created";
     Printed "localhost:8080 is exposed at abc123.onion:80";
     Sent GETINFO_onions;
     Printed "Press Ctrl+C to interrupt...";
     Slept 1000; Slept 1000; Slept 1000;
     Printed "Ctrl+C pressed. Exiting...";
     Sent (DEL_ONION "abc123"); Sent GETINFO_onions; Closed;
     Printed "Service terminated"]
  ∧ completed r = Normal tt.
Proof. vm_compute. tauto. Qed.

(** ** The claims at sample runs *)

Lemma sample_confirmed : confirmed daemon false "abc123".
Proof.
  repeat split; try reflexivity; try discriminate.
  - right. by exists sample_key.
  - exists ["abc123"]. split; [reflexivity | apply list_elem_of_here].
Defined.

Lemma encode_keys_deterministic_unpadded_witness :
  encode_keys sample_key (public_key sample_key)
    = encode_keys sample_key_again (public_key sample_key)
  ∧ ¬ PyStr.contains "=" (fst (encode_keys sample_key (public_key sample_key)))
  ∧ ¬ PyStr.contains "=" (snd (encode_keys sample_key (public_key sample_key))).
Proof.
  apply (encode_keys_deterministic_unpadded
           sample_key sample_key_again (public_key sample_key) (public_key sample_key));
    reflexivity.
Defined.

Lemma authentication_rejected_witness :
  let r := start_ephemeral_service rejecting 8080 80 false (Some "secret") in
  trace r = [Opened; Sent (AUTHENTICATE (Some "secret")); Closed]
  ∧ count is_create (trace r) = 0%nat
  ∧ completed r = Raised AuthenticationFailure
  ∧ exit_status r = Some 1.
Proof.
  apply (authentication_rejected rejecting 8080 80 false (Some "secret"));
    reflexivity.
Defined.

Lemma interrupt_before_wait_witness :
  let r := start_ephemeral_service interrupted_early 8080 80 false None in
  count is_remove (trace r) = 0%nat
  ∧ count is_caught (trace r) = 0%nat
  ∧ (∃ body, trace r = Opened :: body ++ [Closed] ∧ count is_closed body = 0%nat)
  ∧ completed r = Raised KeyboardInterrupt
  ∧ exit_status r = Some 1.
Proof.
  apply (interrupt_before_wait interrupted_early 8080 80 false None).
  split; [reflexivity|]. right. right. left.
  split; [reflexivity|]. split; [|reflexivity].
  right. by exists sample_key.
Defined.

Lemma connection_closed_on_every_exit_witness :
  let r := start_ephemeral_service unlisted 8080 80 false None in
  ∃ body tail,
    trace r = Opened :: body ++ Closed :: tail
    ∧ count is_opened body = 0%nat
    ∧ count is_closed body = 0%nat
    ∧ count is_closed (trace r) = 1%nat
    ∧ (tail = [] ∨ tail = [Printed "Service terminated"]).
Proof.
  apply (connection_closed_on_every_exit unlisted 8080 80 false None).
  vm_compute. discriminate.
Defined.

Lemma interrupt_during_wait_witness :
  let r := start_ephemeral_service daemon 8080 80 false None in
  (∃ before,
     trace r =
       before
       ++ Printed "Press Ctrl+C to interrupt..." :: replicate 3 (Slept 1000)
       ++ [Printed "Ctrl+C pressed. Exiting..."; Sent (DEL_ONION "abc123");
           Sent GETINFO_onions; Closed; Printed "Service terminated"]
     ∧ count is_remove before = 0%nat
     ∧ count is_closed before = 0%nat)
  ∧ completed r = Normal tt
  ∧ exit_status r = Some 0.
Proof.
  apply (interrupt_during_wait daemon 8080 80 false None "abc123" 2 true []).
  - exact sample_confirmed.
  - reflexivity.
  - reflexivity.
  - reflexivity.
  - apply not_elem_of_nil.
Defined.


Lemma sample_confirmed_lingering : confirmed lingering false "abc123".
Proof.
  repeat split; try reflexivity; try discriminate.
  - right. by exists sample_key.
  - exists ["abc123"]. split; [reflexivity | apply list_elem_of_here].
Defined.

Lemma sample_created_unlisted : created unlisted false "abc123".
Proof.
  repeat split; try reflexivity; try discriminate.
  right. by exists sample_key.
Defined.

Lemma create_request_shape_witness :
  let kwargs :=
    hidden_service_configuration 80 8080
      {["client_auth_v3" :=
          VStr "AIBAEAQCAIBAEAQCAIBAEAQCAIBAEAQCAIBAEAQCAIBAEAQCAIBA"]} in
  kwargs !! "await_publication" = Some (VBool true)
  ∧ kwargs !! "ports" = Some (VPorts {[80 := 8080]})
  ∧ ∃ fresh,
      env_generate daemon = Returns fresh
      ∧ kwargs !! "client_auth_v3"
        = Some (VStr (snd (uncurry encode_keys (generate_x25519_key_pair fresh))))
      ∧ dom kwargs = {["ports"; "await_publication"; "client_auth_v3"]}.
Proof.
  intros kwargs.
  apply (create_request_shape daemon 8080 80 false None kwargs).
  vm_compute. tauto.
Defined.


Lemma protocol_inconsistency_fatal_witness :
  (let r := start_ephemeral_service anonymous 8080 80 false None in
   ∃ ac key,
     keys_are anonymous false ac key
     ∧ trace r = requested 8080 80 None ac ++ [Closed]
     ∧ count is_sent (trace r) = 2%nat
     ∧ completed r = Raised AssertionError ∧ exit_status r = Some 1)
  ∧ (let r := start_ephemeral_service unlisted 8080 80 false None in
     ∃ ac key,
       keys_are unlisted false ac key
       ∧ trace r = exposed 8080 80 false None ac key "abc123" ++ [Closed]
       ∧ count is_sent (trace r) = 3%nat
       ∧ count is_remove (trace r) = 0%nat
       ∧ completed r = Raised AssertionError ∧ exit_status r = Some 1)
  ∧ (let r := start_ephemeral_service lingering 8080 80 false None in
     ∃ ac key,
       keys_are lingering false ac key
       ∧ trace r =
           interrupted 8080 80 false None ac key "abc123" 2
           ++ [Sent GETINFO_onions; Closed]
       ∧ count is_sent (trace r) = 5%nat
       ∧ count is_remove (trace r) = 1%nat
       ∧ completed r = Raised AssertionError ∧ exit_status r = Some 1).
Proof.
  split; [|split].
  - apply (proj1 (protocol_inconsistency_fatal anonymous 8080 80 false None)
             {| service_id := None |}).
    + split; reflexivity.
    + right. by exists sample_key.
    + reflexivity.
    + left. reflexivity.
  - apply (proj1 (proj2 (protocol_inconsistency_fatal unlisted 8080 80 false None))
             "abc123" []).
    + exact sample_created_unlisted.
    + reflexivity.
    + apply not_elem_of_nil.
  - apply (proj2 (proj2 (protocol_inconsistency_fatal lingering 8080 80 false None))
             "abc123" 2%nat true ["abc123"]).
    + exact sample_confirmed_lingering.
    + reflexivity.
    + reflexivity.
    + reflexivity.
    + apply list_elem_of_here.
Defined.

(** C4, as the specification words it, fails: with a daemon whose list
    lacks the identifier it has just handed out, the address line is in the
    trace all the same, since it is printed before the list is queried. *)
Lemma address_shown_before_confirmation :
  In (Printed (address_line 8080 "abc123" 80))
     (trace (start_ephemeral_service unlisted 8080 80 false None))
  ∧ env_list_after_create unlisted = Returns []
  ∧ ¬ address_only_after_confirmation.
Proof.
  assert (Hin : In (Printed (address_line 8080 "abc123" 80))
                  (trace (start_ephemeral_service unlisted 8080 80 false None)))
    by (vm_compute; tauto).
  split; [exact Hin|]. split; [reflexivity|].
  intros Hclaim.
  destruct (Hclaim unlisted 8080 80 false None "abc123" Hin) as (services & Hlist & Hsid).
  injection Hlist as <-. by apply elem_of_nil in Hsid.
Qed.

Lemma exposure_after_create_reply_witness :
  (let r := start_ephemeral_service daemon 8080 80 false None in
   ∃ sid ac key rest,
     created daemon false sid ∧ keys_are daemon false ac key
     ∧ trace r =
         [Opened; Sent (AUTHENTICATE None);
          Sent (ADD_ONION (hidden_service_configuration 80 8080 ac));
          Printed "Ephemeral hidden service created";
          Printed (address_line 8080 sid 80)]
         ++ [Printed (credential_line key)]
         ++ Sent GETINFO_onions :: rest
     ∧ count is_exposure rest = 0%nat)
  ∧ (let r := start_ephemeral_service unlisted 8080 80 false None in
     In (Printed (address_line 8080 "abc123" 80)) (trace r)
     ∧ count is_waiting (trace r) = 0%nat
     ∧ count is_remove (trace r) = 0%nat
     ∧ completed r = Raised AssertionError
     ∧ exit_status r = Some 1).
Proof.
  split.
  - apply (proj1 (exposure_after_create_reply daemon 8080 80 false None)).
    exists (Printed (address_line 8080 "abc123" 80)).
    split; [vm_compute; tauto | reflexivity].
  - apply (proj2 (exposure_after_create_reply unlisted 8080 80 false None) "abc123" []).
    + exact sample_created_unlisted.
    + reflexivity.
    + apply not_elem_of_nil.
Defined.

(** ** More on the text of a key *)

Section KeyText.

Lemma data_length_exact s :
  length (data s) = ((8 * length s + 4) / 5)%nat.
Proof.
  induction s as [|a|a b|a b c|a b c d|a b c d e l IH] using list_ind5;
    try reflexivity.
  cbn [data]. rewrite length_app, quantum_length, IH.
  change (length (a :: b :: c :: d :: e :: l)) with (5 + length l)%nat.
  replace (8 * (5 + length l) + 4)%nat with (8 * length l + 4 + 8 * 5)%nat by lia.
  rewrite Nat.div_add by lia. lia.
Qed.

Lemma b32text_length keybytes :
  String.length (b32text keybytes) = ((8 * length keybytes + 4) / 5)%nat.
Proof. rewrite <- encode_length, encode_b32text. apply data_length_exact. Qed.

Lemma b32tab_alphabet d : 0 <= d < 32 → b32tab d ∈ b32alphabet.
Proof.
  intros Hd. unfold b32tab. apply list_elem_of_In, nth_In.
  change (length b32alphabet) with 32%nat. lia.
Qed.

Lemma quantum_alphabet c :
  0 <= c < 2 ^ 40 → Forall (λ b, b ∈ b32alphabet) (quantum c).
Proof.
  intros Hc. change (2 ^ 40) with 1099511627776 in Hc.
  unfold quantum, b32tab2. cbn [app].
  repeat (apply Forall_cons_2; [apply b32tab_alphabet; solve_div|]).
  apply Forall_nil_2.
Qed.

Lemma data_alphabet s : Forall (λ b, b ∈ b32alphabet) (data s).
Proof.
  induction s as [|a|a b|a b c|a b c d|a b c d e l IH] using list_ind5.
  - constructor.
  - apply Forall_take, quantum_alphabet, from_bytes_range.
  - apply Forall_take, quantum_alphabet, from_bytes_range.
  - apply Forall_take, quantum_alphabet, from_bytes_range.
  - apply Forall_take, quantum_alphabet, from_bytes_range.
  - cbn [data]. apply Forall_app. split; [|done].
    apply quantum_alphabet, from_bytes_range.
Qed.

Lemma byte_of_ascii_inj a b : byte_of_ascii a = byte_of_ascii b → a = b.
Proof.
  intros H. rewrite <- (ascii_of_byte_of_ascii a), H. apply ascii_of_byte_of_ascii.
Qed.

Lemma b32text_alphabet keybytes c :
  PyStr.contains c (b32text keybytes) →
  PyStr.contains c "ABCDEFGHIJKLMNOPQRSTUVWXYZ234567".
Proof.
  intros H%contains_encode. rewrite encode_b32text in H.
  pose proof (data_alphabet keybytes) as Hd. rewrite Forall_forall in Hd.
  apply Hd in H. unfold b32alphabet, String.list_byte_of_string in H.
  apply list_elem_of_fmap in H as (a & Ha & Hin).
  apply byte_of_ascii_inj in Ha as ->. exact Hin.
Qed.

Lemma encode_inj s1 s2 : encode s1 = encode s2 → s1 = s2.
Proof.
  intros H. rewrite <- (String.string_of_list_byte_of_string s1).
  rewrite <- (String.string_of_list_byte_of_string s2).
  unfold encode in H. by rewrite H.
Qed.

Lemma b32text_inj k1 k2 : b32text k1 = b32text k2 → k1 = k2.
Proof.
  intros H. pose proof (b32text_round_trip k1) as H1.
  rewrite H, b32text_round_trip in H1. by injection H1.
Qed.

Lemma npad_le n : (npad n <= 6)%nat.
Proof. destruct n as [|[|[|[|[|n]]]]]; simpl; lia. Qed.

Lemma b32encode_length_exact s :
  length (b32encode s) = (8 * ((length s + 4) / 5))%nat.
Proof.
  rewrite b32encode_data, length_app, length_replicate, data_length_exact.
  pose proof (Nat.div_mod_eq (length s) 5) as Hdm.
  pose proof (Nat.mod_upper_bound (length s) 5 ltac:(lia)) as Hlt.
  set (q := (length s / 5)%nat) in *. set (m := (length s mod 5)%nat) in *.
  rewrite Hdm.
  destruct m as [|[|[|[|[|k]]]]]; try lia; cbn [npad].
  - replace (8 * (5 * q + 0) + 4)%nat with (4 + (8 * q) * 5)%nat by lia.
    replace (5 * q + 0 + 4)%nat with (4 + q * 5)%nat by lia.
    rewrite !Nat.div_add by lia. simpl. lia.
  - replace (8 * (5 * q + 1) + 4)%nat with (12 + (8 * q) * 5)%nat by lia.
    replace (5 * q + 1 + 4)%nat with (5 + q * 5)%nat by lia.
    rewrite !Nat.div_add by lia. simpl. lia.
  - replace (8 * (5 * q + 2) + 4)%nat with (20 + (8 * q) * 5)%nat by lia.
    replace (5 * q + 2 + 4)%nat with (6 + q * 5)%nat by lia.
    rewrite !Nat.div_add by lia. simpl. lia.
  - replace (8 * (5 * q + 3) + 4)%nat with (28 + (8 * q) * 5)%nat by lia.
    replace (5 * q + 3 + 4)%nat with (7 + q * 5)%nat by lia.
    rewrite !Nat.div_add by lia. simpl. lia.
  - replace (8 * (5 * q + 4) + 4)%nat with (36 + (8 * q) * 5)%nat by lia.
    replace (5 * q + 4 + 4)%nat with (8 + q * 5)%nat by lia.
    rewrite !Nat.div_add by lia. simpl. lia.
Qed.

End KeyText.

(** X1. The text of a key of [n] raw bytes has [(8 * n + 4) / 5] characters,
    the base-32 digits of its [8 * n] bits rounded up: 52 characters for the
    32 bytes of an X25519 key. *)
Theorem encode_keys_length private_key public_key :
  String.length (fst (encode_keys private_key public_key))
    = ((8 * length (private_bytes private_key) + 4) / 5)%nat
  ∧ String.length (snd (encode_keys private_key public_key))
    = ((8 * length (public_bytes public_key) + 4) / 5)%nat.
Proof. unfold encode_keys. cbn [fst snd]. by rewrite !b32text_length. Qed.

Example sample_key_text_length :
  String.length (fst (encode_keys sample_key (public_key sample_key))) = 52%nat
  ∧ String.length (snd (encode_keys sample_key (public_key sample_key))) = 52%nat.
Proof. split; reflexivity. Qed.

(** X2. Every character of the private-key text and of the public-key text
    is one of the 32 characters of the base-32 alphabet, the capital letters
    and the digits 2 to 7. *)
Theorem encode_keys_alphabet private_key public_key c :
  PyStr.contains c (fst (encode_keys private_key public_key))
  ∨ PyStr.contains c (snd (encode_keys private_key public_key)) →
  PyStr.contains c "ABCDEFGHIJKLMNOPQRSTUVWXYZ234567".
Proof. intros [H|H]; exact (b32text_alphabet _ _ H). Qed.

Lemma encode_keys_alphabet_witness :
  PyStr.contains "Q" "ABCDEFGHIJKLMNOPQRSTUVWXYZ234567".
Proof.
  apply (encode_keys_alphabet sample_key (public_key sample_key) "Q").
  left. apply list_elem_of_In. vm_compute. tauto.
Defined.

(** X3. Key pairs with the same two texts have the same raw bytes: two
    different keys never get the same text. *)
Theorem encode_keys_injective private_key private_key' public_key public_key' :
  encode_keys private_key public_key = encode_keys private_key' public_key' →
  private_bytes private_key = private_bytes private_key'
  ∧ public_bytes public_key = public_bytes public_key'.
Proof.
  unfold encode_keys. intros [= H1 H2]. split; by apply b32text_inj.
Qed.

Lemma encode_keys_injective_witness :
  private_bytes sample_key = private_bytes sample_key_again
  ∧ public_bytes (public_key sample_key) = public_bytes (public_key sample_key).
Proof.
  apply (encode_keys_injective sample_key sample_key_again
           (public_key sample_key) (public_key sample_key)).
  reflexivity.
Defined.

(** X4. [rstrip] takes away the padding and nothing else: the encoding
    [b32encode] gives is the text of the key followed by [=] characters, at
    most six of them, their number fixed by the number of raw bytes modulo
    five, and eight characters long for every five bytes begun. *)
Theorem rstrip_removes_padding_only keybytes :
  decode (b32encode keybytes)
    = b32text keybytes
      +:+ decode (replicate (npad (length keybytes mod 5)) pad)
  ∧ (npad (length keybytes mod 5) <= 6)%nat
  ∧ String.length (decode (b32encode keybytes))
    = (8 * ((length keybytes + 4) / 5))%nat.
Proof.
  split; [|split; [apply npad_le|]].
  - apply encode_inj.
    rewrite encode_app, !encode_decode, encode_b32text. apply b32encode_data.
  - rewrite <- encode_length, encode_decode. apply b32encode_length_exact.
Qed.

(** X5. The text of a key goes through [b32decode] as it is only when the
    number of raw bytes is a multiple of five; otherwise [b32decode] refuses
    it, and the padding has to be put back first. The text of a 32-byte key
    is refused. *)
Theorem b32decode_unpadded_text keybytes :
  b32decode (b32text keybytes)
    = if bool_decide (length keybytes mod 5 = 0)%nat then Some keybytes else None.
Proof.
  case_bool_decide as Hmod.
  - apply b32decode_b32encode. rewrite encode_b32text, b32encode_data, Hmod.
    cbn [npad replicate]. by rewrite app_nil_r.
  - unfold b32decode. rewrite encode_b32text.
    pose proof (data_length keybytes) as Hd.
    pose proof (Nat.mod_upper_bound (length keybytes) 5 ltac:(lia)) as Hlt.
    rewrite bool_decide_eq_false_2; [done|].
    rewrite Hd.
    destruct (length keybytes mod 5)%nat as [|[|[|[|[|k]]]]]; try lia; discriminate.
Qed.

Example sample_key_text_refused :
  b32decode (fst (encode_keys sample_key (public_key sample_key))) = None.
Proof. vm_compute. reflexivity. Qed.

(** ** More on the session *)

(** X6. Once the connection is open, the first thing sent is the
    authentication command, with the password the function was given,
    unchanged; it is sent once, and the connection is opened once. *)
Theorem authenticate_comes_first env lp hsp public pw :
  let r := start_ephemeral_service env lp hsp public pw in
  env_from_port env = Returns tt →
  ∃ rest,
    trace r = Opened :: Sent (AUTHENTICATE pw) :: rest
    ∧ count is_authenticate rest = 0%nat
    ∧ count is_opened rest = 0%nat.
Proof.
  intros r Hopen. by_shape r; env_facts.
  all: match goal with |- ∃ _, ?t = _ ∧ _ => exists (tail (tail t)) end.
  all: split; [reflexivity | split; count_trace].
Qed.

(** X7. Outside public mode, when the key generator raises, the exception
    leaves the function: nothing but the authentication command was sent, so
    no create command, the connection is closed and the status is 1. *)
Theorem key_generation_failure env lp hsp pw e :
  let r := start_ephemeral_service env lp hsp false pw in
  authenticated env →
  env_generate env = Raises e →
  trace r = [Opened; Sent (AUTHENTICATE pw); Closed]
  ∧ completed r = Raised e
  ∧ exit_status r = Some 1.
Proof.
  intros r Hauth Hgen. by_shape r; env_facts. repeat split.
Qed.

(** X8. In public mode the key generator is not used: the run is the same
    whatever the generator would do, and no credential line is printed. *)
Theorem public_mode_generates_no_key env lp hsp pw g :
  start_ephemeral_service (with_generate g env) lp hsp true pw
    = start_ephemeral_service env lp hsp true pw
  ∧ count is_credential
      (trace (start_ephemeral_service env lp hsp true pw)) = 0%nat.
Proof.
  split; [reflexivity|].
  set (r := start_ephemeral_service env lp hsp true pw).
  by_shape r; env_facts; count_trace.
Qed.

(** X12. What the remove command returns is not looked at: a daemon that
    answers "was not running" gives the same run as one that answers
    "removed". *)
Theorem remove_reply_is_ignored env lp hsp public pw removed removed' :
  start_ephemeral_service (with_remove (Returns removed) env) lp hsp public pw
    = start_ephemeral_service (with_remove (Returns removed') env) lp hsp public pw.
Proof. reflexivity. Qed.

(** X9. Outside public mode, a credential line in the trace carries the
    private-key text of the key drawn in this run, whose public-key text is
    in the create command of the same run; there is one such line. *)
Theorem credential_matches_registered_key env lp hsp pw line :
  let r := start_ephemeral_service env lp hsp false pw in
  In (Printed line) (trace r) →
  starts_with "Client authentication key: " line = true →
  ∃ fresh,
    env_generate env = Returns fresh
    ∧ line = credential_line (fst (encode_keys fresh (public_key fresh)))
    ∧ In (Sent (ADD_ONION
                  (hidden_service_configuration hsp lp
                     {["client_auth_v3" :=
                         VStr (snd (encode_keys fresh (public_key fresh)))]})))
         (trace r)
    ∧ count is_credential (trace r) = 1%nat.
Proof.
  intros r Hin Hline.
  by_shape r; env_facts; in_cases Hin; simplify_eq;
    try (lazy in Hline; discriminate).
  all: eexists; split; [eassumption|]; split; [reflexivity|].
  all: split; [|count_trace].
  all: cbv [interrupted exposed requested opening]; cbn [app In]; tauto.
Qed.

(** X10. The process ends with status 0 exactly when the service was
    confirmed, the interruption arrived during the wait, the remove command
    returned and the list queried after it lacks the identifier. The last
    line, [Service terminated], is printed exactly in that case, and never
    twice. *)
Theorem exit_zero_iff_clean_teardown env lp hsp public pw :
  let r := start_ephemeral_service env lp hsp public pw in
  (exit_status r = Some 0 ↔ clean_teardown env public)
  ∧ (count is_terminated (trace r) = 1%nat ↔ exit_status r = Some 0)
  ∧ (count is_terminated (trace r) <= 1)%nat.
Proof.
  intros r. split; [split|split; [split|]].
  - intros Hexit. by_shape r; try discriminate.
    eexists _, _, _, _. eauto.
  - intros (sid & n & removed & services & Hconf & Hsl & Hrm & Hl & Hout).
    by_shape r; try reflexivity; exfalso; env_facts.
  - by_shape r; count_trace; try discriminate.
  - by_shape r; try discriminate. intros _. count_trace.
  - by_shape r; count_trace; lia.
Qed.


(** X13. A remove command is sent only for the identifier of the create
    reply, once the list has confirmed it, and only after an interruption
    during the wait: it comes right after the line of the handler, and no
    remove command comes before. *)
Theorem remove_only_after_interrupt env lp hsp public pw sid :
  let r := start_ephemeral_service env lp hsp public pw in
  In (Sent (DEL_ONION sid)) (trace r) →
  confirmed env public sid
  ∧ (∃ n, env_sleeps env = Some n)
  ∧ ∃ before after,
      trace r = before ++ Printed "Ctrl+C pressed. Exiting..."
                  :: Sent (DEL_ONION sid) :: after
      ∧ count is_remove before = 0%nat.
Proof.
  intros r Hin.
  by_shape r; in_cases Hin; simplify_eq.
  all: split; [assumption|]; split; [eauto|].
  all: match goal with
    | |- ∃ _ _, interrupted ?lp ?hsp ?pub ?pw ?ac ?key ?sid ?n ++ ?rest = _ ∧ _ =>
        exists (exposed lp hsp pub pw ac key sid
                ++ Printed "Press Ctrl+C to interrupt..." :: replicate (S n) (Slept 1000)),
               rest
    end.
  all: split; [assoc_trace | count_trace].
Qed.


(** ** The further properties at sample runs *)

Lemma authenticate_comes_first_witness :
  let r := start_ephemeral_service daemon 8080 80 false (Some "secret") in
  ∃ rest,
    trace r = Opened :: Sent (AUTHENTICATE (Some "secret")) :: rest
    ∧ count is_authenticate rest = 0%nat
    ∧ count is_opened rest = 0%nat.
Proof.
  apply (authenticate_comes_first daemon 8080 80 false (Some "secret")).
  reflexivity.
Defined.

Lemma key_generation_failure_witness :
  let r := start_ephemeral_service no_entropy 8080 80 false None in
  trace r = [Opened; Sent (AUTHENTICATE None); Closed]
  ∧ completed r = Raised UnsupportedAlgorithm
  ∧ exit_status r = Some 1.
Proof.
  apply (key_generation_failure no_entropy 8080 80 None UnsupportedAlgorithm).
  - split; reflexivity.
  - reflexivity.
Defined.

Lemma credential_matches_registered_key_witness :
  let r := start_ephemeral_service daemon 8080 80 false None in
  ∃ fresh,
    env_generate daemon = Returns fresh
    ∧ "Client authentication key: AEAQCAIBAEAQCAIBAEAQCAIBAEAQCAIBAEAQCAIBAEAQCAIBAEAQ"
      = credential_line (fst (encode_keys fresh (public_key fresh)))
    ∧ In (Sent (ADD_ONION
                  (hidden_service_configuration 80 8080
                     {["client_auth_v3" :=
                         VStr (snd (encode_keys fresh (public_key fresh)))]})))
         (trace r)
    ∧ count is_credential (trace r) = 1%nat.
Proof.
  apply (credential_matches_registered_key daemon 8080 80 None).
  - vm_compute. tauto.
  - reflexivity.
Defined.

Lemma sample_clean_teardown : clean_teardown already_gone false.
Proof.
  exists "abc123", 2%nat, false, []. split; [|repeat split; apply not_elem_of_nil].
  repeat split; try reflexivity; try discriminate.
  - right. by exists sample_key.
  - exists ["abc123"]. split; [reflexivity | apply list_elem_of_here].
Defined.

Lemma exit_zero_iff_clean_teardown_witness :
  exit_status (start_ephemeral_service already_gone 8080 80 false None) = Some 0.
Proof.
  apply (proj1 (exit_zero_iff_clean_teardown already_gone 8080 80 false None)).
  exact sample_clean_teardown.
Defined.


Lemma remove_only_after_interrupt_witness :
  let r := start_ephemeral_service daemon 8080 80 false None in
  confirmed daemon false "abc123"
  ∧ (∃ n, env_sleeps daemon = Some n)
  ∧ ∃ before after,
      trace r = before ++ Printed "Ctrl+C pressed. Exiting..."
                  :: Sent (DEL_ONION "abc123") :: after
      ∧ count is_remove before = 0%nat.
Proof.
  apply (remove_only_after_interrupt daemon 8080 80 false None "abc123").
  vm_compute. tauto.
Defined.

